(** * Periodic context gathering: the scheduler and its two owners

    A shallow embedding of
    - [scripts/periodic-context-gather.js] (class [PeriodicContextGatherer]
      and the CLI entry point [main]), and
    - [frontend/src/hooks/usePeriodicContextGather.js] together with the
      parts of [services/contextService.js], [config/api.js] and
      [context/AppContext.jsx] it calls.

    JavaScript objects become records, mutable fields are threaded through a
    small state-and-exception monad, and an [async] function is cut at its
    single [await]: the part before it runs when the function is called, the
    part after it runs when the awaited promise settles.  The event loop is
    a step function over the events the runtime can deliver (a timer firing,
    a promise settling, a signal, a call of a public method).

    The passing of time is not modelled: console lines are kept without
    their ISO timestamp, and a timer is an armed handle that may fire at
    any moment until it is cleared.  The one reading of the clock that the
    control flow depends on, the date of the next run in the banner of
    [start], is an argument of [start]. *)

From Stdlib Require Import ZArith List String Ascii Bool Lia.
From Stdlib Require Decimal DecimalString DecimalNat.
Import ListNotations.
Open Scope string_scope.
Open Scope list_scope.

(** ** JavaScript values crossing the HTTP boundary *)

(** The JSON body of a reply of [POST /context-gather].  A field that is
    missing (or is not of the expected type) is [None];
    [time_taken_seconds] is kept as the text the console prints. *)
Record responseData := mkResponseData {
  statuscode : option Z;
  detail : option string;
  time_taken_seconds : option string
}.

(** An axios response: [response.status] and [response.data]; [data] is
    [None] when the body is [null], and a body that is not an object is a
    record with no field. *)
Record httpResponse := mkHttpResponse {
  http_status : Z;
  data : option responseData
}.

(** The body of an error reply, with its [error] field when it has one. *)
Record errorBody := mkErrorBody {
  error_field : option string
}.

(** [error.response] of an axios error: [status], [data] ([None] when the
    body is [null], [undefined] or otherwise falsy) and [statusText]. *)
Record errorResponse := mkErrorResponse {
  status : Z;
  err_data : option errorBody;
  statusText : string
}.

(** [error.response.data?.error] *)
Definition data_error (resp : errorResponse) : option string :=
  match err_data resp with
  | Some b => error_field b
  | None => None
  end.

(** A thrown [Error] object.  An axios error carries [response] when the
    server answered with an error status and [request] when the request was
    sent; any other [Error] (a [TypeError], say) has neither. *)
Record jsError := mkJsError {
  response : option errorResponse;
  request : bool;
  message : string
}.

(** How the promise returned by [apiClient.post] settles. *)
Inductive postResult :=
| Fulfilled (r : httpResponse)
| Rejected (e : jsError).

(** Truthiness of a string, and of an optional (possibly [undefined])
    string. *)
Definition truthy (s : string) : bool :=
  match s with EmptyString => false | String _ _ => true end.

Definition truthy_opt (o : option string) : bool :=
  match o with Some s => truthy s | None => false end.

(** [x === 200] on a field that may be missing. *)
Definition is_200 (o : option Z) : bool :=
  match o with Some z => Z.eqb z 200 | None => false end.

(** The two console streams. *)
Inductive stream := Out | Err.

(** ** JavaScript numbers

    The numbers of this program are integer-valued doubles, [NaN] and the
    two infinities.  A finite one is kept as the integer it denotes. *)
Inductive number := NaN | Num (z : Z) | Infinity | NegInfinity.

(** The double nearest to a natural number [a] (ties to the even
    significand): every integer up to [2^53] is a double; above, the
    53 leading bits are kept; [None] when the result is beyond the largest
    double. *)
Definition round_magnitude (a : Z) : option Z :=
  if (a <=? 2 ^ 53)%Z then Some a
  else
    let e := (Z.log2 a - 52)%Z in
    let q := (a / 2 ^ e)%Z in
    let r := (a mod 2 ^ e)%Z in
    let half := (2 ^ (e - 1))%Z in
    let m := if ((half <? r) || ((r =? half) && Z.odd q))%Z%bool
             then (q + 1)%Z else q in
    let v := (m * 2 ^ e)%Z in
    if (2 ^ 1024 <=? v)%Z then None else Some v.

(** The number an exact integer result becomes. *)
Definition round_double (z : Z) : number :=
  match round_magnitude (Z.abs z) with
  | Some v => Num (Z.sgn z * v)
  | None => if (z <? 0)%Z then NegInfinity else Infinity
  end.

(** [x * k] for a positive integer constant [k]. *)
Definition mul_const (x : number) (k : Z) : number :=
  match x with
  | Num a => round_double (a * k)
  | other => other
  end.

(** [a + x] for an integer [a]. *)
Definition add_to (a : Z) (x : number) : number :=
  match x with
  | Num b => round_double (a + b)
  | other => other
  end.

(** Whether [new Date(t)] is a valid date: a time value within
    8.64e15 milliseconds of the epoch. *)
Definition valid_date (t : number) : bool :=
  match t with
  | Num z => ((-8640000000000000 <=? z) && (z <=? 8640000000000000))%Z
  | _ => false
  end.

Arguments round_double z : simpl never.
Arguments mul_const x k : simpl never.
Arguments add_to a x : simpl never.
Arguments valid_date t : simpl never.

(** The [RangeError] that [toISOString] throws on an invalid date. *)
Definition RangeError_invalid_time : jsError :=
  mkJsError None false "Invalid time value".

(** ** Statements that read and write a state and may throw *)

Section Exec.
Context {St : Type}.

Inductive completion (A : Type) :=
| Normal (a : A)
| Throw (e : jsError).
Arguments Normal {A} a.
Arguments Throw {A} e.

Definition M (A : Type) := St -> completion A * St.

Definition ret {A} (a : A) : M A := fun s => (Normal a, s).

Definition bind {A B} (m : M A) (k : A -> M B) : M B :=
  fun s => match m s with
           | (Normal a, s') => k a s'
           | (Throw e, s') => (Throw e, s')
           end.

Definition throw {A} (e : jsError) : M A := fun s => (Throw e, s).

Definition modify (f : St -> St) : M unit := fun s => (Normal tt, f s).

(** [try { body } catch (error) { handler }] *)
Definition tryCatch {A} (body : M A) (handler : jsError -> M A) : M A :=
  fun s => match body s with
           | (Normal a, s') => (Normal a, s')
           | (Throw e, s') => handler e s'
           end.

(** [try { body } finally { fin }]: [fin] always runs; a throw of [fin]
    replaces the completion of [body]. *)
Definition tryFinally {A} (body : M A) (fin : M unit) : M A :=
  fun s => match body s with
           | (c, s') => match fin s' with
                        | (Normal _, s'') => (c, s'')
                        | (Throw e, s'') => (Throw e, s'')
                        end
           end.

(** [await p] once [p] has settled. *)
Definition await (r : postResult) : M httpResponse :=
  match r with
  | Fulfilled resp => ret resp
  | Rejected e => throw e
  end.

(** The state a statement leaves. *)
Definition exec {A} (m : M A) (s : St) : St := snd (m s).

(** Whether a statement ends by returning. *)
Definition returns {A} (m : M A) (s : St) : bool :=
  match fst (m s) with Normal _ => true | Throw _ => false end.
End Exec.

Arguments Normal {A} a.
Arguments Throw {A} e.
Arguments M St A : clear implicits.

Notation "x <- m ;; k" := (bind m (fun x => k))
  (at level 61, m at next level, right associativity).
Notation "m ;; k" := (bind m (fun _ => k))
  (at level 61, right associativity).

(** A statement that returns from every state. *)
Definition total {St A} (m : M St A) : Prop :=
  forall s, exists a, fst (m s) = Normal a.

(** [xs] without its [k]-th element. *)
Fixpoint remove_nth {A} (k : nat) (xs : list A) : list A :=
  match k, xs with
  | _, [] => []
  | O, _ :: xs' => xs'
  | S k', x :: xs' => x :: remove_nth k' xs'
  end.

Definition mem_nat (n : nat) (l : list nat) : bool := existsb (Nat.eqb n) l.

(** * The standalone process: [PeriodicContextGatherer] *)

Module Gatherer.

Definition DEFAULT_INTERVAL_MINUTES : Z := 3.

(** The fields of a [PeriodicContextGatherer] the methods read or write
    ([apiClient] is the transport and is represented by the requests it
    is asked to send, see [process]).  The gatherers considered are
    constructed with a finite whole number of minutes, as [main] does
    unless the interval it read is infinite (see [construct_and_start]);
    [intervalMs] is the double the constructor computes. *)
Record t := mkT {
  codebasePath : string;
  intervalMinutes : Z;
  intervalMs : number;
  intervalId : option nat;
  isRunning : bool
}.

(** One call of [console.log] or [console.error], here and in [main]. *)
Inductive line :=
| AlreadyInProgress                       (* "Context gathering already in progress, skipping..." *)
| StartingFor (path : string)             (* "Starting context gathering for: <path>" *)
| CompletedSuccessfully                   (* "Context gathering completed successfully" *)
| StatusDetail (d : option string)        (* "   - Status: <detail>" *)
| TimeTaken (t : option string)           (* "   - Time taken: <t>s" *)
| CompletedWithWarnings                   (* "Context gathering completed with warnings" *)
| ResponseWas (d : option responseData)   (* "   - Response:" response.data *)
| GatheringFailed                         (* "Context gathering failed:" *)
| FailedStatus (s : Z)                    (* "   - Status: <status>" *)
| FailedError (m : string)                (* "   - Error: <text>" *)
| FailedNetwork                           (* "   - Network error: Unable to reach server at <url>" *)
| AlreadyRunning                          (* "Periodic context gathering is already running" *)
| StartBanner                             (* "Starting periodic context gathering..." *)
| BannerCodebase (path : string)          (* "   - Codebase: <path>" *)
| BannerInterval (m : number)             (* "   - Interval: <m> minutes" *)
| BannerApiUrl                            (* "   - API URL: <url>" *)
| BannerNextRun                           (* "   - Next run: <time>" *)
| BannerCtrlC                             (* "   - Press Ctrl+C to stop" *)
| Stopped                                 (* "Periodic context gathering stopped" *)
| ShuttingDown                            (* "Shutting down gracefully..." *)
| HelpText                                (* the usage text of --help *)
| PathRequired                            (* "Error: Codebase path is required" *)
| UsageHint                               (* "Usage: node scripts/periodic-context-gather.js ..." *)
| HelpHint                                (* "Run with --help for more information" *)
| IntervalTooSmall.                       (* "Error: Interval must be at least 1 minute" *)

(** The Node process around one gatherer: the object itself, the interval
    timers that are armed, the calls of [apiClient.post] still awaited
    (each with the [codebase_path] it sent), every request sent so far,
    the console, promises of [gatherContext] that were rejected with
    nobody handling them, and the exit status once [process.exit] ran. *)
Record process := mkProcess {
  self : t;
  timers : list nat;
  nextTimer : nat;
  pending : list string;
  posts : list string;
  console : list (stream * line);
  unhandled : list jsError;
  exited : option Z
}.

Definition set_self (f : t -> t) (w : process) : process :=
  mkProcess (f (self w)) (timers w) (nextTimer w) (pending w) (posts w)
            (console w) (unhandled w) (exited w).

Definition set_isRunning (b : bool) : M process unit :=
  modify (set_self (fun g =>
    mkT (codebasePath g) (intervalMinutes g) (intervalMs g) (intervalId g) b)).

Definition set_intervalId (i : option nat) : M process unit :=
  modify (set_self (fun g =>
    mkT (codebasePath g) (intervalMinutes g) (intervalMs g) i (isRunning g))).

Definition print (s : stream) (l : line) : M process unit :=
  modify (fun w =>
    mkProcess (self w) (timers w) (nextTimer w) (pending w) (posts w)
              (console w ++ [(s, l)]) (unhandled w) (exited w)).

Definition console_log := print Out.
Definition console_error := print Err.

(** [this.apiClient.post('/context-gather', { codebase_path })]: the
    request leaves, and the caller is suspended on the promise. *)
Definition apiClient_post (path : string) : M process unit :=
  modify (fun w =>
    mkProcess (self w) (timers w) (nextTimer w) (pending w ++ [path])
              (posts w ++ [path]) (console w) (unhandled w) (exited w)).

(** [setInterval(this.gatherContext, this.intervalMs)]: a fresh handle,
    always truthy. *)
Definition setInterval : M process nat :=
  fun w => (Normal (nextTimer w),
    mkProcess (self w) (nextTimer w :: timers w) (S (nextTimer w))
              (pending w) (posts w) (console w) (unhandled w) (exited w)).

Definition clearInterval (id : nat) : M process unit :=
  modify (fun w =>
    mkProcess (self w) (filter (fun j => negb (Nat.eqb id j)) (timers w))
              (nextTimer w) (pending w) (posts w) (console w)
              (unhandled w) (exited w)).

Definition process_exit (code : Z) : M process unit :=
  modify (fun w =>
    mkProcess (self w) (timers w) (nextTimer w) (pending w) (posts w)
              (console w) (unhandled w) (Some code)).

Definition this : M process t := fun w => (Normal (self w), w).

(** [gatherContext], from its call to the [await]. *)
Definition gatherContext : M process unit :=
  g <- this ;;
  if isRunning g then
    console_log AlreadyInProgress
  else
    set_isRunning true ;;
    console_log (StartingFor (codebasePath g)) ;;
    apiClient_post (codebasePath g).

(** The [catch (error)] block of [gatherContext]. *)
Definition gatherContext_catch (error : jsError) : M process unit :=
  console_error GatheringFailed ;;
  match response error with
  | Some resp =>
      console_error (FailedStatus (status resp)) ;;
      console_error (FailedError
        (match data_error resp with
         | Some m => if truthy m then m else statusText resp
         | None => statusText resp
         end))
  | None =>
      if request error then console_error FailedNetwork
      else console_error (FailedError (message error))
  end.

(** [gatherContext], from the moment the awaited promise settles with
    [r] to the end of the function. *)
Definition gatherContext_resume (r : postResult) : M process unit :=
  tryFinally
    (tryCatch
      (resp <- await r ;;
       match data resp with
       | Some d =>
           if is_200 (statuscode d) then
             console_log CompletedSuccessfully ;;
             console_log (StatusDetail (detail d)) ;;
             console_log (TimeTaken (time_taken_seconds d))
           else
             console_log CompletedWithWarnings ;;
             console_log (ResponseWas (data resp))
       | None =>
           console_log CompletedWithWarnings ;;
           console_log (ResponseWas (data resp))
       end)
      gatherContext_catch)
    (set_isRunning false).

(** The six lines [start] prints before it does anything, when the clock
    ([Date.now()]) reads [now].  The fifth prints
    [new Date(Date.now() + this.intervalMs).toISOString()], which throws
    when that date is not valid. *)
Definition start_banner (now : Z) (g : t) : M process unit :=
  console_log StartBanner ;;
  console_log (BannerCodebase (codebasePath g)) ;;
  console_log (BannerInterval (Num (intervalMinutes g))) ;;
  console_log BannerApiUrl ;;
  (if valid_date (add_to now (intervalMs g))
   then console_log BannerNextRun
   else throw RangeError_invalid_time) ;;
  console_log BannerCtrlC.

(** [this.intervalId = setInterval(this.gatherContext, this.intervalMs)] *)
Definition arm_timer : M process unit :=
  id <- setInterval ;;
  set_intervalId (Some id).

(** [start()] when the clock reads [now]. *)
Definition start (now : Z) : M process unit :=
  g <- this ;;
  match intervalId g with
  | Some _ => console_log AlreadyRunning
  | None =>
      start_banner now g ;;
      gatherContext ;;
      arm_timer
  end.

Definition stop : M process unit :=
  g <- this ;;
  match intervalId g with
  | Some id =>
      clearInterval id ;;
      set_intervalId None ;;
      console_log Stopped
  | None => ret tt
  end.

Definition handleExit : M process unit :=
  console_log ShuttingDown ;;
  stop ;;
  process_exit 0.

(** [new PeriodicContextGatherer(codebasePath, intervalMinutes)] in a
    fresh process. *)
Definition create (codebasePath : string) (intervalMinutes : Z) : t :=
  mkT codebasePath intervalMinutes
      (mul_const (mul_const (Num intervalMinutes) 60) 1000) None false.

Definition boot (codebasePath : string) (intervalMinutes : Z) : process :=
  mkProcess (create codebasePath intervalMinutes) [] 1 [] [] [] [] None.

(** *** The event loop *)

Inductive event :=
| Tick (id : nat)                     (* the interval timer [id] fires *)
| Settle (k : nat) (r : postResult)   (* the [k]-th awaited request settles *)
| CallStart (now : Z)                 (* [gatherer.start()], the clock reading [now] *)
| CallStop                            (* [gatherer.stop()] *)
| CallGather                          (* [gatherer.gatherContext()] *)
| Signal.                             (* SIGINT or SIGTERM *)

(** The awaited request [k] settles: its [gatherContext] resumes; if the
    function ended by throwing, its promise is rejected and nobody
    handles it. *)
Definition settle (k : nat) (r : postResult) (w : process) : process :=
  match nth_error (pending w) k with
  | None => w
  | Some _ =>
      let w1 := mkProcess (self w) (timers w) (nextTimer w)
                          (remove_nth k (pending w)) (posts w) (console w)
                          (unhandled w) (exited w) in
      match gatherContext_resume r w1 with
      | (Normal _, w2) => w2
      | (Throw e, w2) =>
          mkProcess (self w2) (timers w2) (nextTimer w2) (pending w2)
                    (posts w2) (console w2) (unhandled w2 ++ [e]) (exited w2)
      end
  end.

(** One event.  When a called method throws, the exception is its
    caller's, and the process goes on in the state the method left. *)
Definition step (e : event) (w : process) : process :=
  match exited w with
  | Some _ => w
  | None =>
      match e with
      | Tick id => if mem_nat id (timers w) then exec gatherContext w else w
      | Settle k r => settle k r w
      | CallStart now => exec (start now) w
      | CallStop => exec stop w
      | CallGather => exec gatherContext w
      | Signal => exec handleExit w
      end
  end.

Definition run (evs : list event) (w : process) : process :=
  fold_left (fun w e => step e w) evs w.

(** *** The command line: [main] *)

(** [parseInt(s)] with no radix, on an ASCII string: leading white space is
    skipped, then an optional sign, then [0x] or [0X] selects base 16, then
    the longest run of digits is read; with no digit the result is [NaN],
    otherwise the double nearest to the integer read. *)
Definition is_space (c : ascii) : bool :=
  let n := nat_of_ascii c in
  (Nat.eqb n 9 || Nat.eqb n 10 || Nat.eqb n 11 || Nat.eqb n 12
   || Nat.eqb n 13 || Nat.eqb n 32)%bool.

Fixpoint trim_start (s : string) : string :=
  match s with
  | String c s' => if is_space c then trim_start s' else s
  | EmptyString => s
  end.

Definition digit_value (c : ascii) : option Z :=
  let n := Z.of_nat (nat_of_ascii c) in
  if ((48 <=? n) && (n <=? 57))%Z then Some (n - 48)%Z
  else if ((97 <=? n) && (n <=? 122))%Z then Some (n - 87)%Z
  else if ((65 <=? n) && (n <=? 90))%Z then Some (n - 55)%Z
  else None.

Fixpoint read_digits (radix : Z) (s : string) (acc : option Z) : option Z :=
  match s with
  | EmptyString => acc
  | String c s' =>
      match digit_value c with
      | Some d =>
          if (d <? radix)%Z then
            read_digits radix s'
              (Some (match acc with Some a => a * radix + d | None => d end)%Z)
          else acc
      | None => acc
      end
  end.

Definition parseInt (s : string) : number :=
  let s1 := trim_start s in
  let '(sign, s2) :=
    match s1 with
    | String "-" r => ((-1)%Z, r)
    | String "+" r => (1%Z, r)
    | _ => (1%Z, s1)
    end in
  let '(radix, s3) :=
    match s2 with
    | String "0" (String "x" r) => (16%Z, r)
    | String "0" (String "X" r) => (16%Z, r)
    | _ => (10%Z, s2)
    end in
  match read_digits radix s3 None with
  | Some v => round_double (sign * v)
  | None => NaN
  end.

(** [parseInt(args[1])], where [args[1]] may be [undefined]. *)
Definition parseInt_arg (a : option string) : number :=
  match a with
  | Some s => parseInt s
  | None => NaN
  end.

(** [n || d] on numbers: [NaN] and [0] are falsy. *)
Definition number_or (n : number) (d : Z) : number :=
  match n with
  | Num z => if (z =? 0)%Z then Num d else n
  | NaN => Num d
  | _ => n
  end.

(** [n < 1] *)
Definition below_one (n : number) : bool :=
  match n with
  | Num z => (z <? 1)%Z
  | NegInfinity => true
  | _ => false
  end.

Definition includes (x : string) (l : list string) : bool :=
  existsb (String.eqb x) l.

(** How [main] ends: [process.exit(code)] with what was printed until then,
    or a constructed and started gatherer that keeps the process alive, or
    an exception that nothing catches, which ends the process, with what
    was printed until then. *)
Inductive mainResult :=
| Exit (code : Z) (printed : list (stream * line))
| Started (w : process)
| Crashed (e : jsError) (printed : list (stream * line)).

(** [new PeriodicContextGatherer(path, minutes).start()] as [main] runs it
    when the clock reads [now].  With an interval that is not finite the
    date of the banner is never valid: [start] throws after its first four
    lines. *)
Definition construct_and_start (now : Z) (path : string) (minutes : number)
  : mainResult :=
  match minutes with
  | Num z =>
      match start now (boot path z) with
      | (Normal _, w) => Started w
      | (Throw e, w) => Crashed e (console w)
      end
  | other =>
      Crashed RangeError_invalid_time
        [(Out, StartBanner); (Out, BannerCodebase path);
         (Out, BannerInterval other); (Out, BannerApiUrl)]
  end.

(** [main()] on [args = process.argv.slice(2)], when the clock reads
    [now]. *)
Definition main (now : Z) (args : list string) : mainResult :=
  if (includes "--help" args || includes "-h" args)%bool then
    Exit 0 [(Out, HelpText)]
  else
    let codebasePath := nth_error args 0 in
    let intervalMinutes :=
      number_or (parseInt_arg (nth_error args 1)) DEFAULT_INTERVAL_MINUTES in
    match codebasePath with
    | None => Exit 1 [(Err, PathRequired); (Err, UsageHint); (Err, HelpHint)]
    | Some path =>
        if negb (truthy path) then
          Exit 1 [(Err, PathRequired); (Err, UsageHint); (Err, HelpHint)]
        else if below_one intervalMinutes then
          Exit 1 [(Err, IntervalTooSmall)]
        else
          construct_and_start now path intervalMinutes
    end.

(** A clock reading for the examples: 3 November 2025, 00:00 UTC. *)
Definition example_now : Z := 1762128000000.

(** *** Notions the properties are stated with *)

(** The process after [lines] were printed and [isRunning] was cleared,
    with nothing else changed. *)
Definition released (w : process) (lines : list (stream * line)) : process :=
  mkProcess
    (mkT (codebasePath (self w)) (intervalMinutes (self w)) (intervalMs (self w))
         (intervalId (self w)) false)
    (timers w) (nextTimer w) (pending w) (posts w) (console w ++ lines)
    (unhandled w) (exited w).

(** The lines [gatherContext] prints when it resumes: those it prints in
    a process whose console is empty. *)
Definition outcome_lines (r : postResult) : list (stream * line) :=
  console (exec (gatherContext_resume r)
                (mkProcess (mkT "" 0 (Num 0) None true) [] 0 [] [] [] [] None)).

(** The invariant of the event loop: the flag is set exactly while one
    request is awaited, the armed timers are the one [intervalId] names,
    and no promise was rejected unhandled. *)
Definition inv (w : process) : Prop :=
  ((isRunning (self w) = false /\ pending w = [])
   \/ (isRunning (self w) = true /\ exists p, pending w = [p]))
  /\ timers w = match intervalId (self w) with Some i => [i] | None => [] end
  /\ unhandled w = [].

(** The world after some lines were printed and nothing else happened. *)
Definition said (w : process) (lines : list (stream * line)) : process :=
  mkProcess (self w) (timers w) (nextTimer w) (pending w) (posts w)
            (console w ++ lines) (unhandled w) (exited w).

End Gatherer.

(** * The component-level owner: [usePeriodicContextGather] *)

Module Hook.

(** ** [context/AppContext.jsx] *)

Record appState := mkAppState {
  theme : string;
  codebasePath : string;
  isContextGathered : bool;
  isLoading : bool;
  error : option string;
  chatHistory : list string
}.

Definition initialState : appState :=
  mkAppState "light" "" false false None [].

(** An action [{ type, payload }]. *)
Inductive action :=
| SET_THEME (payload : string)
| SET_CODEBASE_PATH (payload : string)
| SET_CONTEXT_GATHERED (payload : bool)
| SET_LOADING (payload : bool)
| SET_ERROR (payload : option string)
| ADD_CHAT_MESSAGE (payload : string)
| CLEAR_CHAT_HISTORY
| RESET_STATE.

Definition appReducer (state : appState) (a : action) : appState :=
  match a with
  | SET_THEME p =>
      mkAppState p (codebasePath state) (isContextGathered state)
                 (isLoading state) (error state) (chatHistory state)
  | SET_CODEBASE_PATH p =>
      mkAppState (theme state) p (isContextGathered state)
                 (isLoading state) (error state) (chatHistory state)
  | SET_CONTEXT_GATHERED p =>
      mkAppState (theme state) (codebasePath state) p
                 (isLoading state) (error state) (chatHistory state)
  | SET_LOADING p =>
      mkAppState (theme state) (codebasePath state) (isContextGathered state)
                 p (error state) (chatHistory state)
  | SET_ERROR p =>
      mkAppState (theme state) (codebasePath state) (isContextGathered state)
                 (isLoading state) p (chatHistory state)
  | ADD_CHAT_MESSAGE p =>
      mkAppState (theme state) (codebasePath state) (isContextGathered state)
                 (isLoading state) (error state) (chatHistory state ++ [p])
  | CLEAR_CHAT_HISTORY =>
      mkAppState (theme state) (codebasePath state) (isContextGathered state)
                 (isLoading state) (error state) []
  | RESET_STATE =>
      mkAppState (theme state) (codebasePath initialState)
                 (isContextGathered initialState) (isLoading initialState)
                 (error initialState) (chatHistory initialState)
  end.

(** ** The hook and what it calls *)

(** One console call of the hook, of [contextService.gatherContext] or of
    the interceptors of [config/api.js]. *)
Inductive line :=
| StartingPeriodic                    (* "Starting periodic context gathering..." *)
| Completed (statusCode : option Z) (timeTaken : option string)
            (detail : option string)  (* "Context gathering completed:" { ... } *)
| PeriodicFailed (e : jsError)        (* "Periodic context gathering failed:" error *)
| StartingEvery                       (* "Starting periodic context gathering every 3 minutes" *)
| Stopping                            (* "Stopping periodic context gathering" *)
| ErrorGathering (e : jsError)        (* "Error gathering context:" error *)
| MakingRequest                       (* "Making POST request to /context-gather" *)
| ResponseReceived (s : Z)            (* "Response received: <status>" *)
| ApiError (d : errorBody + string).  (* "API Error:" error.response?.data || error.message *)

(** Where the component that uses the hook is in its life. *)
Inductive phase := Fresh | Mounted | Unmounted.

(** One instance of the hook in the page: its two refs; the state of the
    provider, the state the latest render of the component saw (its
    callbacks captured [codebasePath] from it), and whether the provider
    state was replaced since; the interval timers that are armed (each
    with the path its [gatherContext] closure captured); the requests still
    awaited; every request sent; the console; and rejected promises nobody
    handled. *)
Record world := mkWorld {
  intervalRef : option nat;
  isRunningRef : bool;
  app : appState;
  rendered : appState;
  stale : bool;
  lifecycle : phase;
  timers : list (nat * string);
  nextTimer : nat;
  pending : list string;
  posts : list string;
  console : list (stream * line);
  unhandled : list jsError
}.

Definition set_intervalRef (i : option nat) : M world unit :=
  modify (fun w =>
    mkWorld i (isRunningRef w) (app w) (rendered w) (stale w) (lifecycle w)
            (timers w) (nextTimer w) (pending w) (posts w) (console w)
            (unhandled w)).

Definition set_isRunningRef (b : bool) : M world unit :=
  modify (fun w =>
    mkWorld (intervalRef w) b (app w) (rendered w) (stale w) (lifecycle w)
            (timers w) (nextTimer w) (pending w) (posts w) (console w)
            (unhandled w)).

Definition set_lifecycle (p : phase) : M world unit :=
  modify (fun w =>
    mkWorld (intervalRef w) (isRunningRef w) (app w) (rendered w) (stale w) p
            (timers w) (nextTimer w) (pending w) (posts w) (console w)
            (unhandled w)).

(** The component renders with the current provider state. *)
Definition render : M world unit :=
  modify (fun w =>
    mkWorld (intervalRef w) (isRunningRef w) (app w) (app w) false
            (lifecycle w) (timers w) (nextTimer w) (pending w) (posts w)
            (console w) (unhandled w)).

(** [dispatch(action)] of the provider: the reducer builds a new state
    object, so a render is due. *)
Definition dispatch (a : action) : M world unit :=
  modify (fun w =>
    mkWorld (intervalRef w) (isRunningRef w) (appReducer (app w) a)
            (rendered w) true (lifecycle w) (timers w) (nextTimer w)
            (pending w) (posts w) (console w) (unhandled w)).

Definition print (s : stream) (l : line) : M world unit :=
  modify (fun w =>
    mkWorld (intervalRef w) (isRunningRef w) (app w) (rendered w) (stale w)
            (lifecycle w) (timers w) (nextTimer w) (pending w) (posts w)
            (console w ++ [(s, l)]) (unhandled w)).

Definition console_log := print Out.
Definition console_error := print Err.

(** [setInterval(gatherContext, CONTEXT_GATHER_INTERVAL)], with the path
    the closure [gatherContext] captured. *)
Definition setInterval (path : string) : M world nat :=
  fun w => (Normal (nextTimer w),
    mkWorld (intervalRef w) (isRunningRef w) (app w) (rendered w) (stale w)
            (lifecycle w) ((nextTimer w, path) :: timers w) (S (nextTimer w))
            (pending w) (posts w) (console w) (unhandled w)).

Definition clearInterval (id : nat) : M world unit :=
  modify (fun w =>
    mkWorld (intervalRef w) (isRunningRef w) (app w) (rendered w) (stale w)
            (lifecycle w)
            (filter (fun t => negb (Nat.eqb id (fst t))) (timers w))
            (nextTimer w) (pending w) (posts w) (console w) (unhandled w)).

(** [apiClient.post('/context-gather', { codebase_path })] up to the
    suspension: the request interceptor prints, the request leaves. *)
Definition apiClient_post (path : string) : M world unit :=
  console_log MakingRequest ;;
  modify (fun w =>
    mkWorld (intervalRef w) (isRunningRef w) (app w) (rendered w) (stale w)
            (lifecycle w) (timers w) (nextTimer w) (pending w ++ [path])
            (posts w ++ [path]) (console w) (unhandled w)).

(** The response interceptor, run when the request settles. *)
Definition apiClient_settled (r : postResult) : M world httpResponse :=
  match r with
  | Fulfilled resp =>
      console_log (ResponseReceived (http_status resp)) ;;
      ret resp
  | Rejected e =>
      console_error (ApiError
        (match response e with
         | Some resp =>
             match err_data resp with
             | Some d => inl d
             | None => inr (message e)
             end
         | None => inr (message e)
         end)) ;;
      throw e
  end.

(** [contextService.gatherContext(codebasePath)], before and after its
    [await]. *)
Definition contextService_gatherContext (path : string) : M world unit :=
  apiClient_post path.

Definition contextService_gatherContext_resume (r : postResult)
  : M world (option responseData) :=
  tryCatch
    (resp <- apiClient_settled r ;;
     ret (data resp))
    (fun e => console_error (ErrorGathering e) ;; throw e).

(** The [TypeError] of reading [statuscode] off a [null] body. *)
Definition TypeError_statuscode : jsError :=
  mkJsError None false "Cannot read properties of null (reading 'statuscode')".

(** [gatherContext] of the render whose [state.codebasePath] is [path],
    from its call to the [await]. *)
Definition gatherContext (path : string) : M world unit :=
  fun w =>
    if (negb (truthy path) || isRunningRef w)%bool then
      ret tt w
    else
      (set_isRunningRef true ;;
       console_log StartingPeriodic ;;
       contextService_gatherContext path) w.

(** [gatherContext] from the moment the awaited call settles. *)
Definition gatherContext_resume (r : postResult) : M world unit :=
  tryFinally
    (tryCatch
      (resp <- contextService_gatherContext_resume r ;;
       match resp with
       | None => throw TypeError_statuscode
       | Some d =>
           console_log (Completed (statuscode d) (time_taken_seconds d)
                                  (detail d)) ;;
           if is_200 (statuscode d) then dispatch (SET_CONTEXT_GATHERED true)
           else ret tt
       end)
      (fun e => console_error (PeriodicFailed e)))
    (set_isRunningRef false).

Definition startPeriodicGathering (path : string) : M world unit :=
  fun w =>
    match intervalRef w with
    | Some _ => ret tt w
    | None =>
        if negb (truthy path) then ret tt w
        else
          (console_log StartingEvery ;;
           id <- setInterval path ;;
           set_intervalRef (Some id)) w
    end.

Definition stopPeriodicGathering : M world unit :=
  fun w =>
    match intervalRef w with
    | Some id =>
        (console_log Stopping ;;
         clearInterval id ;;
         set_intervalRef None) w
    | None => ret tt w
    end.

(** The body of the first [useEffect], in the render of state [s]. *)
Definition effect (s : appState) : M world unit :=
  if (isContextGathered s && truthy (codebasePath s))%bool then
    startPeriodicGathering (codebasePath s)
  else
    stopPeriodicGathering.

(** A render after the provider state was replaced.  The provider builds a
    new [actions] object on every render, so [gatherContext] and
    [startPeriodicGathering] are recreated and the first effect is always
    cleaned up and run again; the second effect is cleaned up when the path
    changed. *)
Definition rerender : M world unit :=
  fun w =>
    (stopPeriodicGathering ;;
     (if String.eqb (codebasePath (rendered w)) (codebasePath (app w))
      then ret tt else stopPeriodicGathering) ;;
     render ;;
     effect (app w)) w.

(** ** The event loop of the page *)

Inductive event :=
| Tick (id : nat)                     (* the interval timer [id] fires *)
| Settle (k : nat) (r : postResult)   (* the [k]-th awaited request settles *)
| Mount                               (* first render of the component *)
| Dispatch (a : action)               (* some component dispatches [a] *)
| Unmount                             (* the component is torn down *)
| CallStart                           (* [startPeriodicGathering()] of the latest render *)
| CallStop                            (* [stopPeriodicGathering()] *)
| CallGather.                         (* [gatherContext()] of the latest render *)

(** The awaited request [k] settles and its [gatherContext] resumes. *)
Definition settle (k : nat) (r : postResult) (w : world) : world :=
  match nth_error (pending w) k with
  | None => w
  | Some _ =>
      let w1 := mkWorld (intervalRef w) (isRunningRef w) (app w) (rendered w)
                        (stale w) (lifecycle w) (timers w) (nextTimer w)
                        (remove_nth k (pending w)) (posts w) (console w)
                        (unhandled w) in
      match gatherContext_resume r w1 with
      | (Normal _, w2) => w2
      | (Throw e, w2) =>
          mkWorld (intervalRef w2) (isRunningRef w2) (app w2) (rendered w2)
                  (stale w2) (lifecycle w2) (timers w2) (nextTimer w2)
                  (pending w2) (posts w2) (console w2) (unhandled w2 ++ [e])
      end
  end.

Definition timer_path (id : nat) (w : world) : option string :=
  option_map snd (find (fun t => Nat.eqb id (fst t)) (timers w)).

(** What the event itself runs. *)
Definition handle (e : event) (w : world) : world :=
  match e with
  | Tick id =>
      match timer_path id w with
      | Some path => exec (gatherContext path) w
      | None => w
      end
  | Settle k r => settle k r w
  | Mount =>
      match lifecycle w with
      | Fresh => exec (set_lifecycle Mounted ;; render ;; effect (app w)) w
      | _ => w
      end
  | Dispatch a => exec (dispatch a) w
  | Unmount =>
      match lifecycle w with
      | Mounted =>
          exec (set_lifecycle Unmounted ;;
                stopPeriodicGathering ;; stopPeriodicGathering) w
      | _ => w
      end
  | CallStart =>
      match lifecycle w with
      | Fresh => w
      | _ => exec (startPeriodicGathering (codebasePath (rendered w))) w
      end
  | CallStop =>
      match lifecycle w with
      | Fresh => w
      | _ => exec stopPeriodicGathering w
      end
  | CallGather =>
      match lifecycle w with
      | Fresh => w
      | _ => exec (gatherContext (codebasePath (rendered w))) w
      end
  end.

(** After the event, React renders the mounted component again when the
    provider state was replaced. *)
Definition flush (w : world) : world :=
  if stale w then
    match lifecycle w with
    | Mounted => exec rerender w
    | _ => w
    end
  else w.

Definition step (e : event) (w : world) : world := flush (handle e w).

Definition run (evs : list event) (w : world) : world :=
  fold_left (fun w e => step e w) evs w.

(** The hook before the first render, under a provider in state [s]. *)
Definition init (s : appState) : world :=
  mkWorld None false s s false Fresh [] 1 [] [] [] [].

(** *** Notions the properties are stated with *)

(** Whether the outcome [r] makes [gatherContext] dispatch
    [SET_CONTEXT_GATHERED]. *)
Definition fed_back (r : postResult) : bool :=
  match r with
  | Fulfilled resp =>
      match data resp with
      | Some d => is_200 (statuscode d)
      | None => false
      end
  | Rejected _ => false
  end.

(** The world after [lines] were printed and [isRunningRef] was cleared
    and, when [fb] holds, [SET_CONTEXT_GATHERED] was dispatched, with
    nothing else changed. *)
Definition released (w : world) (lines : list (stream * line)) (fb : bool)
  : world :=
  mkWorld (intervalRef w) false
    (if fb then appReducer (app w) (SET_CONTEXT_GATHERED true) else app w)
    (rendered w) (if fb then true else stale w) (lifecycle w) (timers w)
    (nextTimer w) (pending w) (posts w) (console w ++ lines) (unhandled w).

(** The invariant of the page's event loop. *)
Definition inv (w : world) : Prop :=
  ((isRunningRef w = false /\ pending w = [])
   \/ (isRunningRef w = true /\ exists p, pending w = [p]))
  /\ ((intervalRef w = None /\ timers w = [])
      \/ (exists i p, intervalRef w = Some i /\ timers w = [(i, p)]))
  /\ unhandled w = [].

(** The part of the world that concerns requests and their outcome. *)
Definition calls (w : world) :=
  (isRunningRef w, pending w, posts w, app w, unhandled w).

(** The render bookkeeping of the component. *)
Definition page (w : world) := (stale w, lifecycle w, rendered w).

(** Every armed timer carries a non-empty path. *)
Definition armed_truthy (w : world) : Prop :=
  Forall (fun t => truthy (snd t) = true) (timers w).

(** Several actions dispatched one after the other. *)
Definition dispatch_all (acts : list action) (s : appState) : appState :=
  fold_left appReducer acts s.

Definition is_set_theme (a : action) : bool :=
  match a with SET_THEME _ => true | _ => false end.

(** Actions that empty the chat history. *)
Definition empties_chat (a : action) : bool :=
  match a with CLEAR_CHAT_HISTORY | RESET_STATE => true | _ => false end.

(** The messages a list of actions adds, in order. *)
Fixpoint added_messages (acts : list action) : list string :=
  match acts with
  | [] => []
  | ADD_CHAT_MESSAGE m :: rest => m :: added_messages rest
  | _ :: rest => added_messages rest
  end.

(** The events of the page itself: the timer, the network, the component's
    life and dispatches.  The three functions the hook returns are called
    by no component of the application. *)
Definition page_event (e : event) : bool :=
  match e with
  | CallStart | CallStop | CallGather => false
  | _ => true
  end.

(** The condition of the first effect. *)
Definition should_run (s : appState) : bool :=
  (isContextGathered s && truthy (codebasePath s))%bool.

(** The timer is what the first effect of the latest render left: on a
    mounted component one timer bound to the provider's path when the
    condition holds, and none otherwise. *)
Definition wired (w : world) : Prop :=
  match lifecycle w with
  | Mounted =>
      stale w = false
      /\ if should_run (app w)
         then exists i, intervalRef w = Some i
                        /\ timers w = [(i, codebasePath (app w))]
                        /\ (i < nextTimer w)%nat
         else intervalRef w = None /\ timers w = []
  | _ => intervalRef w = None /\ timers w = []
  end.

End Hook.

(** * The setup page: [pages/SetupPage.jsx] *)

Module Setup.

(** [s.trim()] on an ASCII string. *)
Definition reverse (s : string) : string :=
  string_of_list_ascii (List.rev (list_ascii_of_string s)).

Definition trim (s : string) : string :=
  reverse (Gatherer.trim_start (reverse (Gatherer.trim_start s))).

(** [hay.includes(needle)] *)
Fixpoint includes (needle hay : string) : bool :=
  (String.prefix needle hay
   || match hay with
      | String _ rest => includes needle rest
      | EmptyString => false
      end)%bool.

Definition backslash : string := String (ascii_of_nat 92) EmptyString.

Definition validatePath (path : string) : string :=
  if negb (truthy (trim path)) then "Codebase path is required"
  else if (negb (includes "/" path) && negb (includes backslash path))%bool
       then "Please enter a valid file system path"
       else "".

(** One console call of the page, or one that the service and the
    transport made on its behalf. *)
Inductive line :=
| Service (l : Hook.line)                       (* lines of contextService.js and config/api.js *)
| StartingGathering (path : string)             (* "Starting context gathering for:" path *)
| GatheringResponse (d : option responseData)   (* "Context gathering response:" response *)
| GatheringFailed (e : jsError).                (* "Context gathering failed:" error *)

(** The page: the provider's state, its two pieces of local state, the
    requests awaited and sent, the console, and whether the navigation to
    the chat was scheduled. *)
Record page := mkPage {
  app : Hook.appState;
  localCodebasePath : string;
  validationError : string;
  awaited : list string;
  sent : list string;
  console : list (stream * line);
  navigateDue : bool
}.

Definition dispatch (a : Hook.action) : M page unit :=
  modify (fun p =>
    mkPage (Hook.appReducer (app p) a) (localCodebasePath p) (validationError p)
           (awaited p) (sent p) (console p) (navigateDue p)).

Definition setLocalCodebasePath (v : string) : M page unit :=
  modify (fun p =>
    mkPage (app p) v (validationError p) (awaited p) (sent p) (console p)
           (navigateDue p)).

Definition setValidationError (v : string) : M page unit :=
  modify (fun p =>
    mkPage (app p) (localCodebasePath p) v (awaited p) (sent p) (console p)
           (navigateDue p)).

Definition print_all (ls : list (stream * line)) : M page unit :=
  modify (fun p =>
    mkPage (app p) (localCodebasePath p) (validationError p) (awaited p)
           (sent p) (console p ++ ls) (navigateDue p)).

Definition console_log (l : line) : M page unit := print_all [(Out, l)].
Definition console_error (l : line) : M page unit := print_all [(Err, l)].

(** [setTimeout(() => navigate('/chat'), 1500)] *)
Definition schedule_navigate : M page unit :=
  modify (fun p =>
    mkPage (app p) (localCodebasePath p) (validationError p) (awaited p)
           (sent p) (console p) true).

(** What a statement of the service does to a console that starts empty:
    how it completes and what it printed. *)
Definition of_service {A} (m : M Hook.world A)
  : completion A * list (stream * line) :=
  let r := m (Hook.init Hook.initialState) in
  (fst r, map (fun sl => (fst sl, Service (snd sl))) (Hook.console (snd r))).

(** [contextService.gatherContext(path)] up to its [await]: the transport
    prints and the request leaves. *)
Definition contextService_gatherContext (path : string) : M page unit :=
  print_all (snd (of_service (Hook.contextService_gatherContext path))) ;;
  modify (fun p =>
    mkPage (app p) (localCodebasePath p) (validationError p)
           (awaited p ++ [path]) (sent p ++ [path]) (console p)
           (navigateDue p)).

(** [contextService.gatherContext(path)] once its request settled. *)
Definition contextService_gatherContext_resume (r : postResult)
  : M page (option responseData) :=
  fun p =>
    let '(c, ls) := of_service (Hook.contextService_gatherContext_resume r) in
    (c, snd (print_all ls p)).

Definition handlePathChange (value : string) : M page unit :=
  fun p =>
    (setLocalCodebasePath value ;;
     if truthy (validationError p) then setValidationError "" else ret tt) p.

(** [a || b] on strings that may be missing. *)
Definition string_or (a : option string) (b : string) : string :=
  match a with
  | Some m => if truthy m then m else b
  | None => b
  end.

(** [error.response?.data?.error || error.message || 'Failed to process codebase'] *)
Definition error_text (e : jsError) : string :=
  string_or
    (match response e with
     | Some resp => data_error resp
     | None => None
     end)
    (string_or (Some (message e)) "Failed to process codebase").

(** [handleStartProcessing], from its call to the [await]. *)
Definition handleStartProcessing : M page unit :=
  fun p =>
    let error := validatePath (localCodebasePath p) in
    if truthy error then setValidationError error p
    else
      (dispatch (Hook.SET_ERROR None) ;;
       dispatch (Hook.SET_LOADING true) ;;
       dispatch (Hook.SET_CODEBASE_PATH (localCodebasePath p)) ;;
       console_log (StartingGathering (localCodebasePath p)) ;;
       contextService_gatherContext (localCodebasePath p)) p.

(** [handleStartProcessing] from the moment the awaited call settles;
    [body_error] is the [error] field of the reply body, when it has
    one. *)
Definition handleStartProcessing_resume (r : postResult)
                                        (body_error : option string)
  : M page unit :=
  tryFinally
    (tryCatch
      (resp <- contextService_gatherContext_resume r ;;
       console_log (GatheringResponse resp) ;;
       match resp with
       | None => throw Hook.TypeError_statuscode
       | Some d =>
           if is_200 (statuscode d) then
             dispatch (Hook.SET_CONTEXT_GATHERED true) ;;
             schedule_navigate
           else
             throw (mkJsError None false
                      (string_or body_error "Failed to gather context"))
       end)
      (fun error =>
         console_error (GatheringFailed error) ;;
         dispatch (Hook.SET_ERROR (Some (error_text error)))))
    (dispatch (Hook.SET_LOADING false)).

(** The four displays of the status card. *)
Inductive icon := Clock | AlertCircle | CheckCircle | Play.

Definition getStatusIcon (state : Hook.appState) : icon :=
  if Hook.isLoading state then Clock
  else if truthy_opt (Hook.error state) then AlertCircle
  else if Hook.isContextGathered state then CheckCircle
  else Play.

Definition getStatusMessage (state : Hook.appState) : string :=
  if Hook.isLoading state then
    "Processing codebase... This may take a few minutes."
  else if truthy_opt (Hook.error state) then
    String.append "Error: "
      (match Hook.error state with Some e => e | None => "" end)
  else if Hook.isContextGathered state then
    "Context gathering completed! Redirecting to chat..."
  else "Ready to process your codebase".

Inductive statusClass := statusLoading | statusError | statusSuccess | statusReady.

Definition getStatusClass (state : Hook.appState) : statusClass :=
  if Hook.isLoading state then statusLoading
  else if truthy_opt (Hook.error state) then statusError
  else if Hook.isContextGathered state then statusSuccess
  else statusReady.

Definition statusTitle (state : Hook.appState) : string :=
  if Hook.isLoading state then "Processing"
  else if truthy_opt (Hook.error state) then "Error"
  else if Hook.isContextGathered state then "Completed"
  else "Ready".

(** ** The events of the page *)

Inductive event :=
| Typed (value : string)      (* the input changes *)
| Click                       (* the button is clicked *)
| Enter                       (* the Enter key is pressed in the input *)
| Settle (k : nat) (r : postResult) (body_error : option string)
                              (* the awaited request [k] settles *)
| Dispatch (a : Hook.action)  (* another component dispatches [a] to the provider *)
| Remount.                    (* the page is left and entered again *)

(** The awaited request [k] settles and its [handleStartProcessing]
    resumes. *)
Definition settle (k : nat) (r : postResult) (body_error : option string)
                  (p : page) : page :=
  match nth_error (awaited p) k with
  | None => p
  | Some _ =>
      exec (handleStartProcessing_resume r body_error)
           (mkPage (app p) (localCodebasePath p) (validationError p)
                   (remove_nth k (awaited p)) (sent p) (console p)
                   (navigateDue p))
  end.

(** A new instance of the page mounts under the provider as it is:
    [useState(state.codebasePath || '')] and [useState('')].  A request an
    earlier instance awaits stays awaited, and its continuation still
    dispatches to the provider. *)
Definition remount (p : page) : page :=
  mkPage (app p) (Hook.codebasePath (app p)) "" (awaited p) (sent p)
         (console p) (navigateDue p).

(** The input is disabled while loading, the button while loading or
    while the trimmed path is empty, and [handleKeyPress] checks the
    loading flag.  The provider is shared with the rest of the
    application, which may dispatch to it at any moment. *)
Definition step (e : event) (p : page) : page :=
  match e with
  | Typed value =>
      if Hook.isLoading (app p) then p else exec (handlePathChange value) p
  | Click =>
      if (Hook.isLoading (app p) || negb (truthy (trim (localCodebasePath p))))%bool
      then p else exec handleStartProcessing p
  | Enter =>
      if Hook.isLoading (app p) then p else exec handleStartProcessing p
  | Settle k r body_error => settle k r body_error p
  | Dispatch a => exec (dispatch a) p
  | Remount => remount p
  end.

Definition run (evs : list event) (p : page) : page :=
  fold_left (fun p e => step e p) evs p.

(** The page as it mounts under a provider in state [s]:
    [useState(state.codebasePath || '')]. *)
Definition init (s : Hook.appState) : page :=
  mkPage s (Hook.codebasePath s) "" [] [] [] false.

(** Whether the reply makes the page record success. *)
Definition succeeded (r : postResult) : bool :=
  match r with
  | Fulfilled resp =>
      match data resp with
      | Some d => is_200 (statuscode d)
      | None => false
      end
  | Rejected _ => false
  end.

End Setup.

(** * [utils/formatters.js] and [components/layout/Header.jsx] *)

Module Formatters.

(** [truncateText(text, maxLength)], on an ASCII string and an integer
    [maxLength]; [substring] clamps a negative end to 0. *)
Definition truncateText (text : string) (maxLength : Z) : string :=
  if (Z.of_nat (String.length text) <=? maxLength)%Z then text
  else String.append (substring 0 (Z.to_nat maxLength) text) "...".

End Formatters.

Module Header.

(** The action [toggleTheme] dispatches. *)
Definition toggleTheme (state : Hook.appState) : Hook.action :=
  Hook.SET_THEME (if String.eqb (Hook.theme state) "light" then "dark" else "light").

(** The actions [handleHomeClick] dispatches on the page at [pathname]. *)
Definition handleHomeClick (pathname : string) : list Hook.action :=
  if negb (String.eqb pathname "/") then [Hook.RESET_STATE] else [].

End Header.

(** * Properties of the numbers *)

(** Integers up to [2^53] are doubles. *)
Lemma round_magnitude_small a :
  (a <= 9007199254740992)%Z -> round_magnitude a = Some a.
Proof.
  intro H. unfold round_magnitude.
  change (2 ^ 53)%Z with 9007199254740992%Z.
  destruct (Z.leb_spec a 9007199254740992); [reflexivity | lia].
Qed.

(** Above [2^53] rounding never comes back below it. *)
Lemma round_magnitude_big a v :
  (9007199254740992 < a)%Z -> round_magnitude a = Some v ->
  (9007199254740992 <= v)%Z.
Proof.
  intros H. unfold round_magnitude.
  change (2 ^ 53)%Z with 9007199254740992%Z.
  destruct (Z.leb_spec a 9007199254740992); [lia|].
  cbv zeta.
  set (e := (Z.log2 a - 52)%Z).
  set (q := (a / 2 ^ e)%Z).
  match goal with
  | |- context [if ?c then (q + 1)%Z else q] =>
      set (m := if c then (q + 1)%Z else q)
  end.
  destruct (2 ^ 1024 <=? m * 2 ^ e)%Z; [discriminate|].
  intro E. injection E as <-.
  assert (Hl : (53 <= Z.log2 a)%Z).
  { change 53%Z with (Z.log2 (2 ^ 53)). apply Z.log2_le_mono.
    change (2 ^ 53)%Z with 9007199254740992%Z. lia. }
  assert (He : (1 <= e)%Z) by (unfold e; lia).
  assert (Hp : (2 ^ 1 <= 2 ^ e)%Z) by (apply Z.pow_le_mono_r; lia).
  change (2 ^ 1)%Z with 2%Z in Hp.
  assert (Hs : (2 ^ Z.log2 a <= a)%Z) by (apply Z.log2_spec; lia).
  replace (Z.log2 a) with (52 + e)%Z in Hs by (unfold e; lia).
  rewrite Z.pow_add_r in Hs by lia.
  change (2 ^ 52)%Z with 4503599627370496%Z in Hs.
  assert (Hq : (4503599627370496 <= q)%Z).
  { unfold q. apply Z.div_le_lower_bound; lia. }
  assert (Hm : (q <= m)%Z)
    by (unfold m; match goal with |- context [if ?c then _ else _] => destruct c end; lia).
  nia.
Qed.

Lemma round_double_small z :
  (Z.abs z <= 9007199254740992)%Z -> round_double z = Num z.
Proof.
  intro H. unfold round_double. rewrite round_magnitude_small by exact H.
  f_equal. destruct z; cbn; lia.
Qed.

(** What rounding does to a natural number. *)
Lemma round_double_nonneg x :
  (0 <= x)%Z ->
  match round_double x with
  | Num v => if (x <=? 9007199254740992)%Z then v = x
             else (9007199254740992 <= v)%Z
  | Infinity => (9007199254740992 < x)%Z
  | _ => False
  end.
Proof.
  intro H. destruct (Z.leb_spec x 9007199254740992) as [Hs|Hb].
  - rewrite round_double_small by lia. reflexivity.
  - unfold round_double. rewrite Z.abs_eq by lia.
    destruct (round_magnitude x) as [v|] eqn:E.
    + pose proof (round_magnitude_big x v Hb E).
      replace (Z.sgn x) with 1%Z by (destruct x; cbn; lia).
      lia.
    + destruct (Z.ltb_spec x 0); [lia | exact Hb].
Qed.

(** The opposite of a positive number rounds to a negative number. *)
Lemma round_double_negative x :
  (1 <= x)%Z ->
  match round_double (- x) with
  | Num v => (v < 0)%Z
  | NegInfinity => True
  | _ => False
  end.
Proof.
  intro H. unfold round_double. rewrite Z.abs_opp, Z.abs_eq by lia.
  replace (Z.sgn (- x)) with (-1)%Z by (destruct x; cbn; lia).
  destruct (round_magnitude x) as [v|] eqn:E.
  - destruct (Z.leb_spec x 9007199254740992) as [Hs|Hb].
    + rewrite round_magnitude_small in E by exact Hs. injection E as <-. lia.
    + pose proof (round_magnitude_big x v Hb E). lia.
  - destruct (Z.ltb_spec (- x) 0); [exact I | lia].
Qed.

(** The interval in milliseconds and the date of the next run, for a clock
    that reads a time after the epoch: the date is valid exactly when the
    exact sum is within the range of dates, and then the interval is
    exact. *)
Lemma next_run_valid now z :
  (0 <= now)%Z -> (1 <= z)%Z ->
  valid_date (add_to now (mul_const (mul_const (Num z) 60) 1000))
  = (now + z * 60000 <=? 8640000000000000)%Z.
Proof.
  intros Hn Hz.
  destruct (Z.leb_spec (now + z * 60000) 8640000000000000) as [Hs|Hb].
  - unfold mul_const. rewrite round_double_small by lia.
    rewrite round_double_small by lia.
    unfold add_to. rewrite round_double_small by lia.
    unfold valid_date.
    apply andb_true_iff. split; apply Z.leb_le; lia.
  - unfold mul_const at 2.
    pose proof (round_double_nonneg (z * 60) ltac:(lia)) as H1.
    destruct (round_double (z * 60)) as [|a1| |]; try contradiction;
      [|reflexivity].
    unfold mul_const.
    assert (Ha1 : (0 <= a1)%Z)
      by (destruct (z * 60 <=? 9007199254740992)%Z; lia).
    pose proof (round_double_nonneg (a1 * 1000) ltac:(lia)) as H2.
    destruct (round_double (a1 * 1000)) as [|a2| |]; try contradiction;
      [|reflexivity].
    unfold add_to.
    assert (Ha2 : (0 <= a2)%Z)
      by (destruct (a1 * 1000 <=? 9007199254740992)%Z; lia).
    pose proof (round_double_nonneg (now + a2) ltac:(lia)) as H3.
    destruct (round_double (now + a2)) as [|a3| |]; try contradiction;
      [|reflexivity].
    unfold valid_date. apply andb_false_iff. right. apply Z.leb_gt.
    destruct (Z.leb_spec (now + a2) 9007199254740992); [|lia].
    destruct (Z.leb_spec (a1 * 1000) 9007199254740992); [|lia].
    destruct (Z.leb_spec (z * 60) 9007199254740992); [|lia].
    lia.
Qed.

(** * Properties of the standalone process *)

Module GathererFacts.
Import Gatherer.

(** Whatever the request's fate, [gatherContext] returns when it resumes,
    prints lines that depend on the outcome only, clears [isRunning] and
    touches nothing else. *)
Lemma resume_released (r : postResult) :
  exists lines, lines <> [] /\
    forall w, gatherContext_resume r w = (Normal tt, released w lines).
Proof.
  destruct r as [[st [d|]] | [[resp|] rq msg]].
  - destruct (is_200 (statuscode d)) eqn:E.
    + eexists. split; [| intro w; cbv [gatherContext_resume tryFinally tryCatch await bind ret
        console_log print modify set_isRunning set_self released data]; cbn; rewrite E; cbn;
        rewrite <- !app_assoc; cbn; reflexivity ]. discriminate.
    + eexists. split; [| intro w; cbv [gatherContext_resume tryFinally tryCatch await bind ret
        console_log print modify set_isRunning set_self released data]; cbn; rewrite E; cbn;
        rewrite <- !app_assoc; cbn; reflexivity ]. discriminate.
  - eexists. split; [| intro w; cbn; rewrite <- !app_assoc; cbn; reflexivity ]. discriminate.
  - eexists. split; [| intro w; cbn; rewrite <- !app_assoc; cbn; reflexivity ]. discriminate.
  - destruct rq.
    + eexists. split; [| intro w; cbn; rewrite <- !app_assoc; cbn; reflexivity ]. discriminate.
    + eexists. split; [| intro w; cbn; rewrite <- !app_assoc; cbn; reflexivity ]. discriminate.
Qed.

Lemma resume_outcome_lines r w :
  gatherContext_resume r w = (Normal tt, released w (outcome_lines r)).
Proof.
  destruct r as [[st [d|]] | [[resp|] rq msg]];
    [destruct (is_200 (statuscode d)) eqn:E | | | destruct rq];
    cbv [outcome_lines exec gatherContext_resume tryFinally tryCatch await bind ret
         console_log print modify set_isRunning set_self released data];
    cbn; rewrite ?E; cbn; rewrite <- ?app_assoc; reflexivity.
Qed.

Lemma outcome_lines_not_skip r s :
  ~ In (s, AlreadyInProgress) (outcome_lines r).
Proof.
  destruct r as [[st [d|]] | [[resp|] rq msg]];
    [destruct (is_200 (statuscode d)) eqn:E | | | destruct rq];
    cbv [outcome_lines exec gatherContext_resume tryFinally tryCatch await bind ret
         console_log print modify set_isRunning set_self released data];
    cbn; rewrite ?E; cbn;
    intro H; repeat (destruct H as [H|H]; [discriminate|]); exact H.
Qed.

Lemma inv_boot path mins : inv (boot path mins).
Proof. cbv [inv boot create]; cbn. auto. Qed.

Lemma inv_gatherContext w : inv w -> inv (exec gatherContext w).
Proof.
  destruct w as [[p m ms i r] ts n pd ps c u x]; cbv [inv]; cbn.
  intros [[[-> ->] | [-> [q ->]]] [-> ->]]; cbn; eauto 6.
Qed.

Lemma inv_stop w : inv w -> inv (exec stop w).
Proof.
  destruct w as [[p m ms [i|] r] ts n pd ps c u x]; cbv [inv]; cbn;
    intros [H [-> ->]]; cbn; rewrite ?Nat.eqb_refl; cbn; auto.
Qed.

(** Runs [start] on an idle gatherer, by cases on the banner's date. *)
Ltac run_start now ms :=
  unfold exec, start, start_banner, bind, this; cbn;
  destruct (valid_date (add_to now ms)); cbn.

Lemma inv_start now w : inv w -> inv (exec (start now) w).
Proof.
  destruct w as [[p m ms [i|] r] ts n pd ps c u x]; cbv [inv]; cbn.
  - intros [H [-> ->]]; cbn; auto.
  - run_start now ms;
      intros [[[-> ->] | [-> [q ->]]] [-> ->]]; cbn; eauto 6.
Qed.

Lemma inv_settle k r w : inv w -> inv (settle k r w).
Proof.
  intros Hinv. unfold settle.
  destruct (nth_error (pending w) k) eqn:E; [| exact Hinv].
  destruct (resume_released r) as [lines [_ Hr]]. rewrite Hr.
  destruct w as [[p m ms i rn] ts n pd ps c u x]; cbv [inv released] in *; cbn in *.
  destruct Hinv as [[[-> ->] | [-> [q ->]]] [-> ->]].
  - destruct k; discriminate.
  - destruct k as [|[|k]]; cbn in *; try discriminate. auto.
Qed.

Lemma inv_step e w : inv w -> inv (step e w).
Proof.
  intros H. unfold step. destruct (exited w); [exact H|].
  destruct e.
  - destruct (mem_nat id (timers w)); auto using inv_gatherContext.
  - now apply inv_settle.
  - now apply inv_start.
  - now apply inv_stop.
  - now apply inv_gatherContext.
  - unfold handleExit.
    assert (Hs := inv_stop _ (proj1 (conj H I))).
    destruct w as [[p m ms [i|] r] ts n pd ps c u x]; cbv [inv] in *; cbn in *;
      exact Hs.
Qed.

Lemma inv_run evs : forall w, inv w -> inv (run evs w).
Proof.
  induction evs as [|e evs IH]; intros w H; cbn; [exact H|].
  apply IH, inv_step, H.
Qed.

(** A new request leaves only when none is awaited. *)
Lemma gatherContext_posts w :
  inv w ->
  posts (exec gatherContext w) = posts w
  \/ (pending w = [] /\ isRunning (self w) = false /\
      exists p, posts (exec gatherContext w) = posts w ++ [p]
                /\ pending (exec gatherContext w) = [p]).
Proof.
  destruct w as [[p m ms i r] ts n pd ps c u x]; cbv [inv]; cbn.
  intros [[[-> ->] | [-> [q ->]]] _]; cbn; eauto 8.
Qed.

Lemma start_posts now w :
  inv w ->
  posts (exec (start now) w) = posts w
  \/ (pending w = [] /\ isRunning (self w) = false /\
      exists p, posts (exec (start now) w) = posts w ++ [p]
                /\ pending (exec (start now) w) = [p]).
Proof.
  destruct w as [[p m ms [i|] r] ts n pd ps c u x]; cbv [inv]; cbn; [auto|].
  run_start now ms;
    intros [[[-> ->] | [-> [q ->]]] _]; cbn; eauto 8.
Qed.

Lemma stop_posts w : posts (exec stop w) = posts w.
Proof. destruct w as [[p m ms [i|] r] ts n pd ps c u x]; reflexivity. Qed.

Lemma settle_posts k r w : posts (settle k r w) = posts w.
Proof.
  unfold settle. destruct (nth_error (pending w) k); [|reflexivity].
  destruct (resume_released r) as [lines [_ Hr]]. rewrite Hr. reflexivity.
Qed.

Lemma step_posts e w :
  inv w ->
  posts (step e w) = posts w
  \/ (pending w = [] /\ isRunning (self w) = false /\
      exists p, posts (step e w) = posts w ++ [p] /\ pending (step e w) = [p]).
Proof.
  intro H. unfold step. destruct (exited w); [auto|].
  destruct e.
  - destruct (mem_nat id (timers w)); auto using gatherContext_posts.
  - left. apply settle_posts.
  - now apply start_posts.
  - left. apply stop_posts.
  - now apply gatherContext_posts.
  - left. destruct w as [[p m ms [i|] r] ts n pd ps c u x]; reflexivity.
Qed.

(** A call of [gatherContext] that finds the flag set only prints. *)
Lemma gatherContext_busy w :
  isRunning (self w) = true ->
  gatherContext w =
  (Normal tt,
   mkProcess (self w) (timers w) (nextTimer w) (pending w) (posts w)
             (console w ++ [(Out, AlreadyInProgress)]) (unhandled w) (exited w)).
Proof.
  destruct w as [[p m ms i r] ts n pd ps c u x]; cbn. intros ->. reflexivity.
Qed.





End GathererFacts.

(** * Properties of the hook *)

Module HookFacts.
Import Hook.

(** Whatever the request's fate, [gatherContext] returns when it resumes,
    prints lines that depend on the outcome only, clears [isRunningRef]
    and, after a reply with [statuscode] 200, has dispatched to the
    provider. *)
Lemma hook_resume_released (r : postResult) :
  exists lines, lines <> [] /\
    forall w, gatherContext_resume r w = (Normal tt, released w lines (fed_back r)).
Proof.
  destruct r as [[st [d|]] | e].
  - destruct (is_200 (statuscode d)) eqn:E.
    + eexists. split; [| intro w; cbv [gatherContext_resume tryFinally tryCatch bind ret
        contextService_gatherContext_resume apiClient_settled console_log print modify
        set_isRunningRef released data fed_back dispatch]; cbn; rewrite E; cbn;
        rewrite <- !app_assoc; cbn; reflexivity ]. discriminate.
    + eexists. split; [| intro w; cbv [gatherContext_resume tryFinally tryCatch bind ret
        contextService_gatherContext_resume apiClient_settled console_log print modify
        set_isRunningRef released data fed_back dispatch]; cbn; rewrite E; cbn;
        rewrite <- !app_assoc; cbn; reflexivity ]. discriminate.
  - eexists. split; [| intro w; cbn; rewrite <- !app_assoc; cbn; reflexivity ]. discriminate.
  - eexists. split; [| intro w; cbn; rewrite <- !app_assoc; cbn; reflexivity ]. discriminate.
Qed.

Lemma hook_inv_init s : inv (init s).
Proof. cbv [inv init]; cbn. auto. Qed.

Lemma hook_inv_gatherContext path w : inv w -> inv (exec (gatherContext path) w).
Proof.
  destruct w as [i r a rd sl lc ts n pd ps c u]; cbv [inv]; cbn.
  unfold gatherContext; cbn.
  destruct path as [|ch path]; cbn; [auto|].
  intros [[[-> ->] | [-> [q ->]]] [Ht ->]]; cbn; eauto 7.
Qed.

Lemma hook_inv_stop w : inv w -> inv (exec stopPeriodicGathering w).
Proof.
  destruct w as [[i|] r a rd sl lc ts n pd ps c u]; cbv [inv]; cbn; [|auto].
  intros [H [[[Hi _] | [j [p [Hj ->]]]] ->]]; [discriminate|].
  injection Hj as <-. cbn. rewrite Nat.eqb_refl. cbn. auto.
Qed.

Lemma hook_inv_start path w : inv w -> inv (exec (startPeriodicGathering path) w).
Proof.
  destruct w as [[i|] r a rd sl lc ts n pd ps c u]; cbv [inv]; cbn; [auto|].
  unfold startPeriodicGathering; cbn.
  destruct path as [|ch path]; cbn; [auto|].
  intros [H [[[_ ->] | [j [p [Hj _]]]] ->]]; [|discriminate].
  cbn. eauto 8.
Qed.

Lemma hook_inv_effect s w : inv w -> inv (exec (effect s) w).
Proof.
  unfold effect. destruct (isContextGathered s && truthy (codebasePath s))%bool;
    auto using hook_inv_start, hook_inv_stop.
Qed.

Lemma hook_inv_render w : inv w -> inv (exec render w).
Proof. destruct w; cbv [inv]; cbn; auto. Qed.

Lemma hook_inv_dispatch a w : inv w -> inv (exec (dispatch a) w).
Proof. destruct w; cbv [inv]; cbn; auto. Qed.

Lemma hook_inv_set_lifecycle p w : inv w -> inv (exec (set_lifecycle p) w).
Proof. destruct w; cbv [inv]; cbn; auto. Qed.

(** Statements that cannot throw run one after the other. *)
Lemma exec_seq {St A B} (m : M St A) (k : M St B) s :
  total m -> exec (m ;; k) s = exec k (exec m s).
Proof.
  intros Hm. destruct (Hm s) as [a Ha]. unfold exec, bind.
  destruct (m s) as [c s']. cbn in *. subst c. reflexivity.
Qed.

Lemma total_seq {St A B} (m : M St A) (k : M St B) :
  total m -> total k -> total (m ;; k).
Proof.
  intros Hm Hk s. destruct (Hm s) as [a Ha]. unfold bind.
  destruct (m s) as [c s']. cbn in *. subst c. apply Hk.
Qed.

Lemma total_modify {St} (f : St -> St) : total (modify f).
Proof. intro s. exists tt. reflexivity. Qed.

Lemma hook_total_stop : total stopPeriodicGathering.
Proof. intro w. exists tt. unfold stopPeriodicGathering. destruct (intervalRef w); reflexivity. Qed.

Lemma hook_total_start path : total (startPeriodicGathering path).
Proof.
  intro w. exists tt. unfold startPeriodicGathering.
  destruct (intervalRef w); [reflexivity|]. destruct (negb (truthy path)); reflexivity.
Qed.

Lemma hook_total_effect s : total (effect s).
Proof.
  unfold effect. destruct (isContextGathered s && truthy (codebasePath s))%bool;
    auto using hook_total_start, hook_total_stop.
Qed.

Lemma hook_total_render : total render.
Proof. apply total_modify. Qed.

Lemma hook_total_set_lifecycle p : total (set_lifecycle p).
Proof. apply total_modify. Qed.

Lemma total_ret {St} : total (@ret St unit tt).
Proof. intro s. exists tt. reflexivity. Qed.

Lemma hook_exec_rerender w :
  exec rerender w =
  exec (effect (app w))
    (exec render
      (exec (if String.eqb (codebasePath (rendered w)) (codebasePath (app w))
             then ret tt else stopPeriodicGathering)
        (exec stopPeriodicGathering w))).
Proof.
  transitivity
    (exec (stopPeriodicGathering ;;
           (if String.eqb (codebasePath (rendered w)) (codebasePath (app w))
            then ret tt else stopPeriodicGathering) ;;
           render ;; effect (app w)) w); [reflexivity|].
  rewrite exec_seq by apply hook_total_stop.
  rewrite exec_seq
    by (destruct (String.eqb _ _); auto using total_ret, hook_total_stop).
  rewrite exec_seq by apply hook_total_render.
  reflexivity.
Qed.

Lemma hook_inv_rerender w : inv w -> inv (exec rerender w).
Proof.
  intro H. rewrite hook_exec_rerender.
  apply hook_inv_effect, hook_inv_render.
  destruct (String.eqb _ _).
  - now apply hook_inv_stop.
  - now apply hook_inv_stop, hook_inv_stop.
Qed.

Lemma hook_inv_flush w : inv w -> inv (flush w).
Proof.
  intro H. unfold flush. destruct (stale w); [|exact H].
  destruct (lifecycle w); auto using hook_inv_rerender.
Qed.

Lemma hook_inv_settle k r w : inv w -> inv (settle k r w).
Proof.
  intros Hinv. unfold settle.
  destruct (nth_error (pending w) k) eqn:E; [| exact Hinv].
  destruct (hook_resume_released r) as [lines [_ Hr]]. rewrite Hr.
  destruct w as [i rn a rd sl lc ts n pd ps c u]; cbv [inv released] in *; cbn in *.
  destruct Hinv as [[[-> ->] | [-> [q ->]]] [Ht ->]].
  - destruct k; discriminate.
  - destruct k as [|[|k]]; cbn in *; try discriminate. auto.
Qed.

Lemma hook_inv_handle e w : inv w -> inv (handle e w).
Proof.
  intros H. destruct e; cbn.
  - destruct (timer_path id w); auto using hook_inv_gatherContext.
  - now apply hook_inv_settle.
  - destruct (lifecycle w); auto.
    rewrite exec_seq by apply hook_total_set_lifecycle.
    rewrite exec_seq by apply hook_total_render.
    now apply hook_inv_effect, hook_inv_render, hook_inv_set_lifecycle.
  - now apply hook_inv_dispatch.
  - destruct (lifecycle w); auto.
    rewrite exec_seq by apply hook_total_set_lifecycle.
    rewrite exec_seq by apply hook_total_stop.
    now apply hook_inv_stop, hook_inv_stop, hook_inv_set_lifecycle.
  - destruct (lifecycle w); auto using hook_inv_start.
  - destruct (lifecycle w); auto using hook_inv_stop.
  - destruct (lifecycle w); auto using hook_inv_gatherContext.
Qed.

Lemma hook_inv_step e w : inv w -> inv (step e w).
Proof. intro H. apply hook_inv_flush, hook_inv_handle, H. Qed.

Lemma hook_inv_run evs : forall w, inv w -> inv (run evs w).
Proof.
  induction evs as [|e evs IH]; intros w H; cbn; [exact H|].
  apply IH, hook_inv_step, H.
Qed.

(** Arming, clearing and rendering leave the requests alone. *)
Lemma hook_calls_stop w : calls (exec stopPeriodicGathering w) = calls w.
Proof. destruct w as [[i|] r a rd sl lc ts n pd ps c u]; reflexivity. Qed.

Lemma hook_calls_start path w : calls (exec (startPeriodicGathering path) w) = calls w.
Proof.
  destruct w as [[i|] r a rd sl lc ts n pd ps c u]; [reflexivity|].
  destruct path; reflexivity.
Qed.

Lemma hook_calls_effect s w : calls (exec (effect s) w) = calls w.
Proof.
  unfold effect. destruct (isContextGathered s && truthy (codebasePath s))%bool;
    auto using hook_calls_start, hook_calls_stop.
Qed.

Lemma hook_calls_render w : calls (exec render w) = calls w.
Proof. reflexivity. Qed.

Lemma hook_calls_rerender w : calls (exec rerender w) = calls w.
Proof.
  rewrite hook_exec_rerender, hook_calls_effect, hook_calls_render.
  destruct (String.eqb _ _); [|rewrite hook_calls_stop]; apply hook_calls_stop.
Qed.

Lemma hook_calls_flush w : calls (flush w) = calls w.
Proof.
  unfold flush. destruct (stale w); [|reflexivity].
  destruct (lifecycle w); auto using hook_calls_rerender.
Qed.

Lemma hook_calls_posts w w' : calls w' = calls w -> posts w' = posts w.
Proof. unfold calls. congruence. Qed.

Lemma hook_calls_pending w w' : calls w' = calls w -> pending w' = pending w.
Proof. unfold calls. congruence. Qed.

Lemma hook_calls_isRunningRef w w' :
  calls w' = calls w -> isRunningRef w' = isRunningRef w.
Proof. unfold calls. congruence. Qed.

(** A call of [gatherContext] that finds the flag set, or whose path is
    empty, changes nothing at all. *)
Lemma hook_gatherContext_busy path w :
  isRunningRef w = true -> gatherContext path w = (Normal tt, w).
Proof.
  intro H. unfold gatherContext. rewrite H, orb_true_r. reflexivity.
Qed.

Lemma hook_gatherContext_empty w : gatherContext "" w = (Normal tt, w).
Proof. reflexivity. Qed.

(** A new request leaves only when none is awaited, and never with an
    empty path. *)
Lemma hook_gatherContext_posts path w :
  inv w ->
  posts (exec (gatherContext path) w) = posts w
  \/ (pending w = [] /\ isRunningRef w = false /\ truthy path = true /\
      posts (exec (gatherContext path) w) = posts w ++ [path]
      /\ pending (exec (gatherContext path) w) = [path]).
Proof.
  destruct w as [i r a rd sl lc ts n pd ps c u]; cbv [inv]; cbn.
  unfold gatherContext; cbn.
  destruct path as [|ch path]; cbn; [auto|].
  intros [[[-> ->] | [-> [q ->]]] _]; cbn; auto 8.
Qed.

Lemma hook_settle_posts k r w : posts (settle k r w) = posts w.
Proof.
  unfold settle. destruct (nth_error (pending w) k); [|reflexivity].
  destruct (hook_resume_released r) as [lines [_ Hr]]. rewrite Hr. reflexivity.
Qed.

Lemma hook_handle_posts e w :
  inv w ->
  posts (handle e w) = posts w
  \/ (pending w = [] /\ isRunningRef w = false /\
      exists p, truthy p = true /\ posts (handle e w) = posts w ++ [p]
                /\ pending (handle e w) = [p]).
Proof.
  intro H. destruct e; cbn.
  - destruct (timer_path id w) as [p|]; [|auto].
    destruct (hook_gatherContext_posts p w H) as [E | (?&?&?&?&?)]; eauto 8.
  - left. apply hook_settle_posts.
  - left. destruct (lifecycle w); auto.
    rewrite exec_seq by apply hook_total_set_lifecycle.
    rewrite exec_seq by apply hook_total_render.
    apply hook_calls_posts. rewrite hook_calls_effect. reflexivity.
  - auto.
  - left. destruct (lifecycle w); auto.
    rewrite exec_seq by apply hook_total_set_lifecycle.
    rewrite exec_seq by apply hook_total_stop.
    apply hook_calls_posts. rewrite !hook_calls_stop. reflexivity.
  - left. destruct (lifecycle w); auto using hook_calls_posts, hook_calls_start.
  - left. destruct (lifecycle w); auto using hook_calls_posts, hook_calls_stop.
  - destruct (lifecycle w); auto;
      destruct (hook_gatherContext_posts (codebasePath (rendered w)) w H)
        as [E | (?&?&?&?&?)]; eauto 8.
Qed.

Lemma hook_step_posts e w :
  inv w ->
  posts (step e w) = posts w
  \/ (pending w = [] /\ isRunningRef w = false /\
      exists p, truthy p = true /\ posts (step e w) = posts w ++ [p]
                /\ pending (step e w) = [p]).
Proof.
  intro H. unfold step.
  rewrite (hook_calls_posts _ _ (hook_calls_flush _)), (hook_calls_pending _ _ (hook_calls_flush _)).
  now apply hook_handle_posts.
Qed.







(** [stopPeriodicGathering] clears the timer and leaves the awaited
    request alone. *)
Lemma hook_stop_effect w :
  inv w ->
  exists lines,
    exec stopPeriodicGathering w =
    mkWorld None (isRunningRef w) (app w) (rendered w) (stale w) (lifecycle w)
            [] (nextTimer w) (pending w) (posts w) (console w ++ lines)
            (unhandled w).
Proof.
  destruct w as [[i|] r a rd sl lc ts n pd ps c u]; cbv [inv]; cbn.
  - intros [_ [[[Hi _] | [j [p [Hj ->]]]] _]]; [discriminate|].
    injection Hj as <-. exists [(Out, Stopping)]. cbn.
    rewrite Nat.eqb_refl. reflexivity.
  - intros [_ [[[_ ->] | [j [p [Hj _]]]] _]]; [|discriminate].
    exists []. cbn. rewrite app_nil_r. reflexivity.
Qed.


Lemma hook_armed_stop w : armed_truthy w -> armed_truthy (exec stopPeriodicGathering w).
Proof.
  destruct w as [[i|] r a rd sl lc ts n pd ps c u]; unfold armed_truthy; cbn; [|auto].
  intro H. apply Forall_forall. intros t Ht. apply filter_In in Ht.
  rewrite Forall_forall in H. apply H, Ht.
Qed.

Lemma hook_armed_start path w :
  armed_truthy w -> armed_truthy (exec (startPeriodicGathering path) w).
Proof.
  destruct w as [[i|] r a rd sl lc ts n pd ps c u]; unfold armed_truthy; cbn; [auto|].
  unfold startPeriodicGathering; cbn.
  destruct path as [|ch path]; cbn; [auto|].
  intro H. constructor; [reflexivity | exact H].
Qed.

Lemma hook_armed_effect s w : armed_truthy w -> armed_truthy (exec (effect s) w).
Proof.
  unfold effect. destruct (isContextGathered s && truthy (codebasePath s))%bool;
    auto using hook_armed_start, hook_armed_stop.
Qed.

Lemma hook_armed_gatherContext path w :
  armed_truthy w -> armed_truthy (exec (gatherContext path) w).
Proof.
  unfold armed_truthy, gatherContext, exec.
  destruct (negb (truthy path) || isRunningRef w)%bool; auto.
Qed.

Lemma hook_armed_settle k r w : armed_truthy w -> armed_truthy (settle k r w).
Proof.
  unfold armed_truthy, settle. destruct (nth_error (pending w) k); [|auto].
  destruct (hook_resume_released r) as [lines [_ Hr]]. rewrite Hr. auto.
Qed.

Lemma hook_armed_step e w : armed_truthy w -> armed_truthy (step e w).
Proof.
  intro H. unfold step.
  assert (Hh : armed_truthy (handle e w)).
  { destruct e; cbn.
    - destruct (timer_path id w); auto using hook_armed_gatherContext.
    - now apply hook_armed_settle.
    - destruct (lifecycle w); auto.
      rewrite exec_seq by apply hook_total_set_lifecycle.
      rewrite exec_seq by apply hook_total_render.
      now apply hook_armed_effect.
    - exact H.
    - destruct (lifecycle w); auto.
      rewrite exec_seq by apply hook_total_set_lifecycle.
      rewrite exec_seq by apply hook_total_stop.
      now apply hook_armed_stop, hook_armed_stop.
    - destruct (lifecycle w); auto using hook_armed_start.
    - destruct (lifecycle w); auto using hook_armed_stop.
    - destruct (lifecycle w); auto using hook_armed_gatherContext. }
  unfold flush. destruct (stale (handle e w)); [|exact Hh].
  destruct (lifecycle (handle e w)); auto.
  rewrite hook_exec_rerender. apply hook_armed_effect.
  assert (Hs := hook_armed_stop _ Hh).
  destruct (String.eqb _ _); [exact Hs | now apply hook_armed_stop].
Qed.

Lemma hook_timers_truthy s evs id path :
  timer_path id (run evs (init s)) = Some path -> truthy path = true.
Proof.
  assert (H : armed_truthy (run evs (init s))).
  { assert (G : forall w, armed_truthy w -> armed_truthy (run evs w)).
    { induction evs as [|e evs IH]; intros w Hw; cbn; [exact Hw|].
      apply IH, hook_armed_step, Hw. }
    apply G. constructor. }
  unfold timer_path.
  destruct (find _ _) as [t|] eqn:E; [|discriminate].
  intro Hp. injection Hp as <-. apply find_some in E.
  unfold armed_truthy in H. rewrite Forall_forall in H. apply H, E.
Qed.

End HookFacts.

(** What [main] has checked when it ends with a started gatherer. *)
Lemma main_started now args w :
  Gatherer.main now args = Gatherer.Started w ->
  exists path z,
    nth_error args 0 = Some path
    /\ truthy path = true
    /\ (1 <= z)%Z
    /\ Gatherer.number_or (Gatherer.parseInt_arg (nth_error args 1))
                          Gatherer.DEFAULT_INTERVAL_MINUTES = Num z
    /\ Gatherer.start now (Gatherer.boot path z) = (Normal tt, w).
Proof.
  unfold Gatherer.main.
  destruct (_ || _)%bool; [discriminate|].
  destruct (nth_error args 0) as [p|]; [|discriminate].
  destruct (truthy p) eqn:Hp; cbn [negb]; [|discriminate].
  destruct (Gatherer.number_or _ _) as [|z| |] eqn:Em; cbn [Gatherer.below_one];
    try discriminate.
  destruct (Z.ltb_spec z 1); [discriminate|].
  unfold Gatherer.construct_and_start.
  destruct (Gatherer.start now (Gatherer.boot p z)) as [[[]|e] w0] eqn:Es;
    [|discriminate].
  intro E. injection E as <-.
  exists p, z. auto.
Qed.

(** [start] on a gatherer that was just constructed: it returns exactly
    when the date of the next run is valid, with the first request sent and
    the first timer armed; otherwise it throws after four lines of the
    banner, with nothing sent and nothing armed. *)
Lemma start_fresh now path z :
  let ms := mul_const (mul_const (Num z) 60) 1000 in
  let banner := [(Out, Gatherer.StartBanner); (Out, Gatherer.BannerCodebase path);
                 (Out, Gatherer.BannerInterval (Num z)); (Out, Gatherer.BannerApiUrl)] in
  Gatherer.start now (Gatherer.boot path z) =
  if valid_date (add_to now ms) then
    (Normal tt,
     Gatherer.mkProcess (Gatherer.mkT path z ms (Some 1%nat) true)
       [1%nat] 2 [path] [path]
       (banner ++ [(Out, Gatherer.BannerNextRun); (Out, Gatherer.BannerCtrlC);
                   (Out, Gatherer.StartingFor path)])
       [] None)
  else
    (Throw RangeError_invalid_time,
     Gatherer.mkProcess (Gatherer.mkT path z ms None false) [] 1 [] [] banner [] None).
Proof.
  cbv zeta. unfold Gatherer.start, Gatherer.start_banner, bind, Gatherer.this,
    Gatherer.boot, Gatherer.create. cbn.
  destruct (valid_date _); reflexivity.
Qed.

(** [main] with a target and an interval that pass its checks. *)
Lemma main_constructs now path args :
  nth_error args 0 = Some path ->
  truthy path = true ->
  Gatherer.includes "--help" args = false ->
  Gatherer.includes "-h" args = false ->
  Gatherer.main now args =
  let minutes := Gatherer.number_or (Gatherer.parseInt_arg (nth_error args 1))
                                    Gatherer.DEFAULT_INTERVAL_MINUTES in
  if Gatherer.below_one minutes then Gatherer.Exit 1 [(Err, Gatherer.IntervalTooSmall)]
  else Gatherer.construct_and_start now path minutes.
Proof.
  intros Ha Hp H1 H2. unfold Gatherer.main. rewrite H1, H2, Ha, Hp. reflexivity.
Qed.

(** The interval in milliseconds is exact as long as it is a date. *)
Lemma interval_ms_exact z :
  (0 <= z)%Z -> (z * 60000 <= 8640000000000000)%Z ->
  mul_const (mul_const (Num z) 60) 1000 = Num (z * 60000).
Proof.
  intros H0 H1. unfold mul_const. rewrite round_double_small by lia.
  rewrite round_double_small by lia. f_equal. lia.
Qed.

(** [new PeriodicContextGatherer(path, z).start()] on a clock that reads a
    time after the epoch, for an interval of at least one minute. *)
Lemma construct_and_start_cases now path z :
  (0 <= now)%Z -> (1 <= z)%Z ->
  Gatherer.construct_and_start now path (Num z) =
  if (now + z * 60000 <=? 8640000000000000)%Z then
    Gatherer.Started (exec (Gatherer.start now) (Gatherer.boot path z))
  else
    Gatherer.Crashed RangeError_invalid_time
      [(Out, Gatherer.StartBanner); (Out, Gatherer.BannerCodebase path);
       (Out, Gatherer.BannerInterval (Num z)); (Out, Gatherer.BannerApiUrl)].
Proof.
  intros Hn Hz. unfold Gatherer.construct_and_start, exec.
  rewrite start_fresh. cbv zeta. rewrite next_run_valid by assumption.
  destruct (_ <=? _)%Z; reflexivity.
Qed.

(** The gatherer [start] leaves when the date of the next run is valid. *)
Lemma start_fresh_valid now path z :
  (0 <= now)%Z -> (1 <= z)%Z -> (now + z * 60000 <= 8640000000000000)%Z ->
  Gatherer.start now (Gatherer.boot path z) =
  (Normal tt,
   Gatherer.mkProcess (Gatherer.mkT path z (Num (z * 60000)) (Some 1%nat) true)
     [1%nat] 2 [path] [path]
     [(Out, Gatherer.StartBanner); (Out, Gatherer.BannerCodebase path);
      (Out, Gatherer.BannerInterval (Num z)); (Out, Gatherer.BannerApiUrl);
      (Out, Gatherer.BannerNextRun); (Out, Gatherer.BannerCtrlC);
      (Out, Gatherer.StartingFor path)]
     [] None).
Proof.
  intros Hn Hz Hv. rewrite start_fresh. cbv zeta.
  rewrite next_run_valid by assumption.
  destruct (Z.leb_spec (now + z * 60000) 8640000000000000); [|lia].
  rewrite interval_ms_exact by lia. reflexivity.
Qed.

(** The gatherer [start] leaves when it throws. *)
Lemma start_fresh_invalid now path z :
  (0 <= now)%Z -> (1 <= z)%Z -> (8640000000000000 < now + z * 60000)%Z ->
  returns (Gatherer.start now) (Gatherer.boot path z) = false
  /\ Gatherer.posts (exec (Gatherer.start now) (Gatherer.boot path z)) = []
  /\ Gatherer.timers (exec (Gatherer.start now) (Gatherer.boot path z)) = []
  /\ Gatherer.intervalId
       (Gatherer.self (exec (Gatherer.start now) (Gatherer.boot path z))) = None.
Proof.
  intros Hn Hz Hv. unfold returns, exec. rewrite start_fresh. cbv zeta.
  rewrite next_run_valid by assumption.
  destruct (Z.leb_spec (now + z * 60000) 8640000000000000); [lia|].
  cbn. auto.
Qed.

(** * The scheduler's contract, checked on both owners *)

(** C1: each scheduler has at most one invocation in flight.  In every
    state the event loop of either owner can reach: at most one request is
    awaited, and the in-flight flag is set exactly when one is; a timer
    tick that finds the flag set sends nothing and leaves the awaited
    request as it is; a request settling never sends a new one (a dropped
    tick is not caught up); and any event that does send a request finds
    no request awaited and the flag released. *)
Theorem invocations_serialized :
  (forall path mins evs e,
     let w := Gatherer.run evs (Gatherer.boot path mins) in
     (List.length (Gatherer.pending w) <= 1)%nat
     /\ (Gatherer.isRunning (Gatherer.self w) = true <-> Gatherer.pending w <> [])
     /\ (Gatherer.isRunning (Gatherer.self w) = true ->
         forall id,
           Gatherer.posts (Gatherer.step (Gatherer.Tick id) w) = Gatherer.posts w
           /\ Gatherer.pending (Gatherer.step (Gatherer.Tick id) w) = Gatherer.pending w)
     /\ (forall k r,
           Gatherer.posts (Gatherer.step (Gatherer.Settle k r) w) = Gatherer.posts w)
     /\ (Gatherer.posts (Gatherer.step e w) = Gatherer.posts w
         \/ (Gatherer.pending w = []
             /\ Gatherer.isRunning (Gatherer.self w) = false
             /\ exists p,
                 Gatherer.posts (Gatherer.step e w) = Gatherer.posts w ++ [p]
                 /\ Gatherer.pending (Gatherer.step e w) = [p])))
  /\ (forall s evs e,
     let w := Hook.run evs (Hook.init s) in
     (List.length (Hook.pending w) <= 1)%nat
     /\ (Hook.isRunningRef w = true <-> Hook.pending w <> [])
     /\ (Hook.isRunningRef w = true ->
         forall id,
           Hook.posts (Hook.step (Hook.Tick id) w) = Hook.posts w
           /\ Hook.pending (Hook.step (Hook.Tick id) w) = Hook.pending w)
     /\ (forall k r,
           Hook.posts (Hook.step (Hook.Settle k r) w) = Hook.posts w)
     /\ (Hook.posts (Hook.step e w) = Hook.posts w
         \/ (Hook.pending w = []
             /\ Hook.isRunningRef w = false
             /\ exists p,
                 Hook.posts (Hook.step e w) = Hook.posts w ++ [p]
                 /\ Hook.pending (Hook.step e w) = [p]))).
Proof.
  split.
  - intros path mins evs e w.
    assert (H : Gatherer.inv w)
      by apply GathererFacts.inv_run, GathererFacts.inv_boot.
    assert (Hp := GathererFacts.step_posts e w H).
    destruct H as [Hf _].
    split; [|split; [|split; [|split]]].
    + destruct Hf as [[_ ->] | [_ [p ->]]]; cbn; lia.
    + destruct Hf as [[-> ->] | [-> [p ->]]]; split; intro; congruence.
    + intros Hr id. unfold Gatherer.step.
      destruct (Gatherer.exited w); [auto|].
      destruct (mem_nat id (Gatherer.timers w)); [|auto].
      unfold exec. rewrite GathererFacts.gatherContext_busy by exact Hr. auto.
    + intros k r. unfold Gatherer.step.
      destruct (Gatherer.exited w); [reflexivity|].
      apply GathererFacts.settle_posts.
    + exact Hp.
  - intros s evs e w.
    assert (H : Hook.inv w)
      by apply HookFacts.hook_inv_run, HookFacts.hook_inv_init.
    assert (Hp := HookFacts.hook_step_posts e w H).
    assert (Hf := proj1 H).
    split; [|split; [|split; [|split]]].
    + destruct Hf as [[_ ->] | [_ [p ->]]]; cbn; lia.
    + destruct Hf as [[-> ->] | [-> [p ->]]]; split; intro; congruence.
    + intros Hr id. unfold Hook.step.
      rewrite (HookFacts.hook_calls_posts _ _ (HookFacts.hook_calls_flush _)),
              (HookFacts.hook_calls_pending _ _ (HookFacts.hook_calls_flush _)).
      cbn. destruct (Hook.timer_path id w); [|auto].
      unfold exec. rewrite HookFacts.hook_gatherContext_busy by exact Hr. auto.
    + intros k r. unfold Hook.step.
      rewrite (HookFacts.hook_calls_posts _ _ (HookFacts.hook_calls_flush _)).
      apply HookFacts.hook_settle_posts.
    + destruct Hp as [Hp | (?&?&p&?&?&?)]; eauto 8.
Qed.

(** An instance of C1: while the first request of a started gatherer is
    awaited, a further timer tick sends nothing. *)
Lemma invocations_serialized_witness :
  let w := Gatherer.run [Gatherer.CallStart Gatherer.example_now; Gatherer.Tick 1]
                        (Gatherer.boot "/repo" 3) in
  Gatherer.isRunning (Gatherer.self w) = true
  /\ Gatherer.posts (Gatherer.step (Gatherer.Tick 1) w) = Gatherer.posts w.
Proof.
  intro w.
  assert (Hr : Gatherer.isRunning (Gatherer.self w) = true)
    by (vm_compute; reflexivity).
  split; [exact Hr|].
  pose proof (proj1 invocations_serialized "/repo" 3%Z
                [Gatherer.CallStart Gatherer.example_now; Gatherer.Tick 1] (Gatherer.Tick 1)) as H.
  cbv zeta in H.
  destruct H as (_ & _ & Htick & _).
  exact (proj1 (Htick Hr 1%nat)).
Defined.




(** After a termination signal the process has exited: [handleExit] runs
    [stop] and then [process.exit(0)], and no later event is handled, so a
    request that was awaited at that moment is never reported. *)
Remark handleExit_ends_process :
  forall w e,
    Gatherer.exited w = None ->
    Gatherer.exited (Gatherer.step Gatherer.Signal w) = Some 0%Z
    /\ Gatherer.step e (Gatherer.step Gatherer.Signal w)
       = Gatherer.step Gatherer.Signal w.
Proof.
  intros w e Hx. unfold Gatherer.step at 1 3 4. rewrite Hx.
  assert (E : Gatherer.exited (exec Gatherer.handleExit w) = Some 0%Z).
  { destruct w as [[p m ms [i|] r] ts n pd ps c u x]; reflexivity. }
  split; [exact E|]. unfold Gatherer.step. rewrite E. reflexivity.
Qed.





(** C10: in the hook, a tick whose target is empty returns silently.  A
    call of [gatherContext] with an empty path returns without throwing
    and leaves the whole world as it was: no request, no console line, no
    flag set.  The guard is the one that absorbs an overlap: with the
    in-flight flag set the call does the same for any path.  Once the
    provider's path has been cleared, the component's [gatherContext]
    does nothing, and no timer that is still armed carries an empty
    path. *)
Theorem hook_tick_empty_target_silent :
  (forall w, Hook.gatherContext "" w = (Normal tt, w))
  /\ (forall w path,
        Hook.isRunningRef w = true -> Hook.gatherContext path w = (Normal tt, w))
  /\ (forall w,
        Hook.codebasePath (Hook.rendered w) = "" ->
        Hook.handle Hook.CallGather w = w)
  /\ (forall s evs id path,
        Hook.timer_path id (Hook.run evs (Hook.init s)) = Some path ->
        truthy path = true).
Proof.
  repeat match goal with |- _ /\ _ => split end.
  - exact HookFacts.hook_gatherContext_empty.
  - intros w path H. now apply HookFacts.hook_gatherContext_busy.
  - intros w H. cbn. rewrite H. destruct (Hook.lifecycle w); reflexivity.
  - intros s evs. apply HookFacts.hook_timers_truthy.
Qed.

(** An instance of C10: while the hook's first request is awaited, its
    [gatherContext] changes nothing. *)
Lemma hook_tick_empty_target_silent_witness :
  let s := Hook.mkAppState "light" "/repo" true false None [] in
  let w := Hook.run [Hook.Mount; Hook.Tick 1] (Hook.init s) in
  Hook.isRunningRef w = true
  /\ Hook.gatherContext "/repo" w = (Normal tt, w).
Proof.
  intros s w.
  assert (Hr : Hook.isRunningRef w = true) by (vm_compute; reflexivity).
  split; [exact Hr|].
  exact (proj1 (proj2 hook_tick_empty_target_silent) w "/repo" Hr).
Defined.

(** C2, as stated, fails.  When the component mounts with a valid target
    and the context gathered, its effect calls [startPeriodicGathering]
    with no timer armed: the timer is armed and no request is sent.  And a
    gatherer that was started and stopped while its first request is still
    awaited is idle, yet starting it again sends no second request. *)
Lemma start_immediate_invocation_counterexample :
  (let s := Hook.mkAppState "light" "/repo" true false None [] in
   let w := Hook.run [Hook.Mount] (Hook.init s) in
   Hook.intervalRef (Hook.init s) = None
   /\ Hook.intervalRef w = Some 1%nat
   /\ Hook.console w = [(Out, Hook.StartingEvery)]
   /\ Hook.posts w = [])
  /\ (let w := Gatherer.run [Gatherer.CallStart Gatherer.example_now; Gatherer.CallStop]
                            (Gatherer.boot "/repo" 3) in
      Gatherer.intervalId (Gatherer.self w) = None
      /\ Gatherer.posts w = ["/repo"]
      /\ Gatherer.posts
           (Gatherer.step (Gatherer.CallStart Gatherer.example_now) w)
         = ["/repo"]
      /\ Gatherer.intervalId
           (Gatherer.self
              (Gatherer.step (Gatherer.CallStart Gatherer.example_now) w))
         = Some 2%nat).
Proof. vm_compute. repeat split. Qed.

(** C2, amended.  In the process, [start] on a gatherer with no timer
    armed and no request awaited, at a moment for which the next run is a
    valid date, prints its banner, then calls [gatherContext], then arms
    the timer: exactly one request for the target leaves, and it has left
    before the timer exists.  With a request still awaited the immediate
    call is skipped as an overlap and the timer is armed all the same.  In
    the hook, [startPeriodicGathering] never sends a request: with no
    timer armed and a non-empty target it only arms the timer. *)
Theorem start_from_idle :
  (forall now w,
     Gatherer.intervalId (Gatherer.self w) = None ->
     Gatherer.isRunning (Gatherer.self w) = false ->
     valid_date (add_to now (Gatherer.intervalMs (Gatherer.self w))) = true ->
     let called :=
       exec Gatherer.gatherContext
            (exec (Gatherer.start_banner now (Gatherer.self w)) w) in
     returns (Gatherer.start now) w = true
     /\ exec (Gatherer.start now) w = exec Gatherer.arm_timer called
     /\ Gatherer.posts called
        = Gatherer.posts w ++ [Gatherer.codebasePath (Gatherer.self w)]
     /\ Gatherer.timers called = Gatherer.timers w
     /\ Gatherer.intervalId (Gatherer.self called) = None
     /\ Gatherer.posts (exec (Gatherer.start now) w)
        = Gatherer.posts w ++ [Gatherer.codebasePath (Gatherer.self w)]
     /\ Gatherer.pending (exec (Gatherer.start now) w)
        = Gatherer.pending w ++ [Gatherer.codebasePath (Gatherer.self w)]
     /\ Gatherer.isRunning (Gatherer.self (exec (Gatherer.start now) w)) = true
     /\ Gatherer.timers (exec (Gatherer.start now) w)
        = Gatherer.nextTimer w :: Gatherer.timers w
     /\ Gatherer.intervalId (Gatherer.self (exec (Gatherer.start now) w))
        = Some (Gatherer.nextTimer w))
  /\ (forall now w,
     Gatherer.intervalId (Gatherer.self w) = None ->
     Gatherer.isRunning (Gatherer.self w) = true ->
     valid_date (add_to now (Gatherer.intervalMs (Gatherer.self w))) = true ->
     returns (Gatherer.start now) w = true
     /\ Gatherer.posts (exec (Gatherer.start now) w) = Gatherer.posts w
     /\ Gatherer.pending (exec (Gatherer.start now) w) = Gatherer.pending w
     /\ Gatherer.console (exec (Gatherer.start now) w)
        = Gatherer.console (exec (Gatherer.start_banner now (Gatherer.self w)) w)
          ++ [(Out, Gatherer.AlreadyInProgress)]
     /\ Gatherer.intervalId (Gatherer.self (exec (Gatherer.start now) w))
        = Some (Gatherer.nextTimer w))
  /\ (forall w path,
     returns (Hook.startPeriodicGathering path) w = true
     /\ Hook.posts (exec (Hook.startPeriodicGathering path) w) = Hook.posts w
     /\ Hook.pending (exec (Hook.startPeriodicGathering path) w) = Hook.pending w
     /\ Hook.isRunningRef (exec (Hook.startPeriodicGathering path) w)
        = Hook.isRunningRef w)
  /\ (forall w path,
     Hook.intervalRef w = None ->
     truthy path = true ->
     Hook.intervalRef (exec (Hook.startPeriodicGathering path) w)
     = Some (Hook.nextTimer w)
     /\ Hook.timers (exec (Hook.startPeriodicGathering path) w)
        = (Hook.nextTimer w, path) :: Hook.timers w).
Proof.
  repeat match goal with |- _ /\ _ => split end.
  - intros now [[p m ms i r] ts n pd ps c u x]; cbn. intros -> -> Hv.
    unfold returns, exec, Gatherer.start, Gatherer.start_banner, bind,
           Gatherer.this; cbn.
    rewrite Hv. cbn. repeat split.
  - intros now [[p m ms i r] ts n pd ps c u x]; cbn. intros -> -> Hv.
    unfold returns, exec, Gatherer.start, Gatherer.start_banner, bind,
           Gatherer.this; cbn.
    rewrite Hv. cbn. repeat split.
  - intros w path.
    pose proof (HookFacts.hook_calls_start path w) as H.
    unfold Hook.calls in H. injection H as H1 H2 H3 _ _.
    repeat split; auto.
    destruct (HookFacts.hook_total_start path w) as [[] E].
    unfold returns. rewrite E. reflexivity.
  - intros [i r a rd sl lc ts n pd ps c u] path; cbn. intros -> Hp.
    unfold Hook.startPeriodicGathering; cbn. rewrite Hp. cbn. auto.
Qed.

(** An instance of C2, amended: the first [start] of a fresh gatherer
    sends one request for its target. *)
Lemma start_from_idle_witness :
  valid_date
    (add_to Gatherer.example_now
       (Gatherer.intervalMs (Gatherer.self (Gatherer.boot "/repo" 3)))) = true
  /\ Gatherer.posts
       (exec (Gatherer.start Gatherer.example_now) (Gatherer.boot "/repo" 3))
     = ["/repo"].
Proof.
  assert (Hv : valid_date
                 (add_to Gatherer.example_now
                    (Gatherer.intervalMs
                       (Gatherer.self (Gatherer.boot "/repo" 3)))) = true)
    by (vm_compute; reflexivity).
  split; [exact Hv|].
  destruct (proj1 start_from_idle Gatherer.example_now
              (Gatherer.boot "/repo" 3) eq_refl eq_refl Hv)
    as (_ & _ & _ & _ & _ & H & _).
  exact H.
Defined.

(** C4, as stated, fails.  In the hook, a timer tick that finds the first
    request still awaited leaves the whole world, console included, as it
    was: the skip is not reported. *)
Lemma overlap_skip_counterexample :
  let s := Hook.mkAppState "light" "/repo" true false None [] in
  let w := Hook.run [Hook.Mount; Hook.Tick 1] (Hook.init s) in
  Hook.isRunningRef w = true
  /\ Hook.timer_path 1 w = Some "/repo"
  /\ Hook.step (Hook.Tick 1) w = w.
Proof. vm_compute. repeat split. Qed.

(** C4, amended.  In the process, a call of [gatherContext] that finds the
    flag set returns after printing one line of its own and changes
    nothing else; that line is none of the lines a settled request prints,
    whether it succeeded or failed.  In the hook such a call returns
    without printing or changing anything. *)
Theorem overlap_skip_reporting :
  (forall w,
     Gatherer.isRunning (Gatherer.self w) = true ->
     Gatherer.gatherContext w
     = (Normal tt, Gatherer.said w [(Out, Gatherer.AlreadyInProgress)]))
  /\ (forall r w s,
     In (s, Gatherer.AlreadyInProgress)
        (Gatherer.console (exec (Gatherer.gatherContext_resume r) w)) ->
     In (s, Gatherer.AlreadyInProgress) (Gatherer.console w))
  /\ (forall w path,
     Hook.isRunningRef w = true ->
     Hook.gatherContext path w = (Normal tt, w)).
Proof.
  repeat match goal with |- _ /\ _ => split end.
  - exact GathererFacts.gatherContext_busy.
  - intros r w s. unfold exec.
    rewrite GathererFacts.resume_outcome_lines. cbn.
    intro H. apply in_app_or in H. destruct H as [H|H]; [exact H|].
    now apply GathererFacts.outcome_lines_not_skip in H.
  - intros w path H. now apply HookFacts.hook_gatherContext_busy.
Qed.

(** An instance of C4, amended: the second tick of a started gatherer
    whose first request is awaited prints the skip line. *)
Lemma overlap_skip_reporting_witness :
  let w := Gatherer.run [Gatherer.CallStart Gatherer.example_now] (Gatherer.boot "/repo" 3) in
  Gatherer.isRunning (Gatherer.self w) = true
  /\ Gatherer.gatherContext w
     = (Normal tt, Gatherer.said w [(Out, Gatherer.AlreadyInProgress)]).
Proof.
  intro w.
  assert (Hr : Gatherer.isRunning (Gatherer.self w) = true)
    by (vm_compute; reflexivity).
  split; [exact Hr|].
  exact (proj1 overlap_skip_reporting w Hr).
Defined.

(** C6, as stated, fails.  In the hook, [startPeriodicGathering] called
    on the timer the mount armed leaves the whole world, console included,
    as it was: nothing reports that it was already running. *)
Lemma second_start_counterexample :
  let s := Hook.mkAppState "light" "/repo" true false None [] in
  let w := Hook.run [Hook.Mount] (Hook.init s) in
  Hook.intervalRef w = Some 1%nat
  /\ Hook.console w = [(Out, Hook.StartingEvery)]
  /\ Hook.step Hook.CallStart w = w.
Proof. vm_compute. repeat split. Qed.

(** C6, amended.  In the process, [start] on a gatherer whose timer is
    armed returns after printing that it is already running and changes
    nothing else, so after a [start] that returned, starting again is
    starting once plus that line; in every reachable state at most one
    timer is armed.  In the hook,
    [startPeriodicGathering] on an armed timer returns without printing or
    changing anything, starting twice is starting once, and at most one
    timer is ever armed. *)
Theorem second_start_noop :
  (forall now w i,
     Gatherer.intervalId (Gatherer.self w) = Some i ->
     Gatherer.start now w
     = (Normal tt, Gatherer.said w [(Out, Gatherer.AlreadyRunning)]))
  /\ (forall now later w,
     returns (Gatherer.start now) w = true ->
     exec (Gatherer.start later) (exec (Gatherer.start now) w)
     = Gatherer.said (exec (Gatherer.start now) w) [(Out, Gatherer.AlreadyRunning)])
  /\ (forall path mins evs,
     (List.length (Gatherer.timers (Gatherer.run evs (Gatherer.boot path mins))) <= 1)%nat)
  /\ (forall w i path,
     Hook.intervalRef w = Some i ->
     Hook.startPeriodicGathering path w = (Normal tt, w))
  /\ (forall w path,
     exec (Hook.startPeriodicGathering path) (exec (Hook.startPeriodicGathering path) w)
     = exec (Hook.startPeriodicGathering path) w)
  /\ (forall s evs,
     (List.length (Hook.timers (Hook.run evs (Hook.init s))) <= 1)%nat).
Proof.
  repeat match goal with |- _ /\ _ => split end.
  - intros now [[p m ms j r] ts n pd ps c u x] i; cbn. intros ->. reflexivity.
  - intros now later [[p m ms [j|] r] ts n pd ps c u x]; [reflexivity|].
    unfold returns, exec, Gatherer.start, Gatherer.start_banner, bind,
           Gatherer.this; cbn.
    destruct (valid_date (add_to now ms)); cbn; [|discriminate].
    intros _. destruct r; reflexivity.
  - intros path mins evs.
    destruct (GathererFacts.inv_run evs _ (GathererFacts.inv_boot path mins))
      as (_ & Ht & _).
    rewrite Ht. destruct (Gatherer.intervalId _); cbn; lia.
  - intros [j r a rd sl lc ts n pd ps c u] i path; cbn. intros ->. reflexivity.
  - intros [[j|] r a rd sl lc ts n pd ps c u] path; [reflexivity|].
    destruct path; reflexivity.
  - intros s evs.
    destruct (HookFacts.hook_inv_run evs _ (HookFacts.hook_inv_init s))
      as (_ & [[_ ->] | (i & p & _ & ->)] & _); cbn; lia.
Qed.

(** An instance of C6, amended: the second [start] of a gatherer. *)
Lemma second_start_noop_witness :
  let w := exec (Gatherer.start Gatherer.example_now) (Gatherer.boot "/repo" 3) in
  Gatherer.intervalId (Gatherer.self w) = Some 1%nat
  /\ Gatherer.start (Gatherer.example_now + 1000) w
     = (Normal tt, Gatherer.said w [(Out, Gatherer.AlreadyRunning)]).
Proof.
  intro w.
  assert (Hi : Gatherer.intervalId (Gatherer.self w) = Some 1%nat)
    by (vm_compute; reflexivity).
  split; [exact Hi|].
  exact (proj1 second_start_noop (Gatherer.example_now + 1000)%Z w 1%nat Hi).
Defined.






(** C7: the interval check of the command line misses the value 0.  With
    the arguments [/repo 0], [parseInt] yields 0, which [||] replaces by
    the default of 3 before the comparison with 1 is made: whenever the
    clock reads a time from which three minutes later is still a date,
    [main] does not exit, it constructs a gatherer with an interval of 3
    minutes and starts it, and the first request leaves. *)
Theorem main_interval_zero_starts :
  Gatherer.parseInt "0" = Num 0
  /\ forall now,
       (0 <= now <= 8639999999820000)%Z ->
       Gatherer.main now ["/repo"; "0"]
       = Gatherer.Started (exec (Gatherer.start now) (Gatherer.boot "/repo" 3))
       /\ Gatherer.intervalMinutes
            (Gatherer.self (exec (Gatherer.start now) (Gatherer.boot "/repo" 3)))
          = 3%Z
       /\ Gatherer.posts (exec (Gatherer.start now) (Gatherer.boot "/repo" 3))
          = ["/repo"].
Proof.
  split; [vm_compute; reflexivity|].
  intros now Hn.
  assert (Em : Gatherer.number_or
                 (Gatherer.parseInt_arg (nth_error ["/repo"; "0"] 1))
                 Gatherer.DEFAULT_INTERVAL_MINUTES = Num 3)
    by (vm_compute; reflexivity).
  rewrite (main_constructs now "/repo") by reflexivity.
  cbv zeta. rewrite Em. cbn [Gatherer.below_one Z.ltb Z.compare].
  rewrite construct_and_start_cases by lia.
  destruct (Z.leb_spec (now + 3 * 60000) 8640000000000000); [|lia].
  unfold exec. rewrite start_fresh_valid by lia. cbn. auto.
Qed.

(** An instance of C7 on the clock of the examples. *)
Lemma main_interval_zero_starts_witness :
  Gatherer.posts
    (exec (Gatherer.start Gatherer.example_now) (Gatherer.boot "/repo" 3))
  = ["/repo"].
Proof.
  assert (Hn : (0 <= Gatherer.example_now <= 8639999999820000)%Z)
    by (vm_compute; split; discriminate).
  destruct (proj2 main_interval_zero_starts Gatherer.example_now Hn)
    as (_ & _ & H).
  exact H.
Defined.

(** What the command line does get right: the interval defaults to 3 when
    the argument is absent or not a number, a negative interval makes
    [main] exit with status 1 and the error line, before a gatherer is
    constructed, and an interval of at least 1 is the one the gatherer is
    constructed with. *)
Lemma main_interval_default_and_negative :
  (forall now path,
     truthy path = true ->
     Gatherer.includes "--help" [path] = false ->
     Gatherer.includes "-h" [path] = false ->
     Gatherer.main now [path] = Gatherer.construct_and_start now path (Num 3))
  /\ (forall now path arg,
     truthy path = true ->
     Gatherer.includes "--help" [path; arg] = false ->
     Gatherer.includes "-h" [path; arg] = false ->
     Gatherer.parseInt arg = NaN ->
     Gatherer.main now [path; arg] = Gatherer.construct_and_start now path (Num 3))
  /\ (forall now path arg,
     truthy path = true ->
     Gatherer.includes "--help" [path; arg] = false ->
     Gatherer.includes "-h" [path; arg] = false ->
     match Gatherer.parseInt arg with
     | Num n => (n < 0)%Z
     | NegInfinity => True
     | _ => False
     end ->
     Gatherer.main now [path; arg] = Gatherer.Exit 1 [(Err, Gatherer.IntervalTooSmall)])
  /\ (forall now path arg n,
     truthy path = true ->
     Gatherer.includes "--help" [path; arg] = false ->
     Gatherer.includes "-h" [path; arg] = false ->
     Gatherer.parseInt arg = Num n ->
     (1 <= n)%Z ->
     Gatherer.main now [path; arg] = Gatherer.construct_and_start now path (Num n)).
Proof.
  repeat match goal with |- _ /\ _ => split end.
  - intros now path Hp H1 H2.
    rewrite (main_constructs now path) by (assumption || reflexivity).
    reflexivity.
  - intros now path arg Hp H1 H2 Hn.
    rewrite (main_constructs now path) by (assumption || reflexivity).
    cbn [nth_error Gatherer.parseInt_arg]. rewrite Hn. reflexivity.
  - intros now path arg Hp H1 H2 Hn.
    rewrite (main_constructs now path) by (assumption || reflexivity).
    cbn [nth_error Gatherer.parseInt_arg].
    destruct (Gatherer.parseInt arg) as [|n| |]; try contradiction.
    + cbn [Gatherer.number_or].
      destruct (Z.eqb_spec n 0); [lia|]. cbn [Gatherer.below_one].
      destruct (Z.ltb_spec n 1); [reflexivity | lia].
    + reflexivity.
  - intros now path arg n Hp H1 H2 Hn Hge.
    rewrite (main_constructs now path) by (assumption || reflexivity).
    cbn [nth_error Gatherer.parseInt_arg]. rewrite Hn.
    cbn [Gatherer.number_or].
    destruct (Z.eqb_spec n 0); [lia|]. cbn [Gatherer.below_one].
    destruct (Z.ltb_spec n 1); [lia | reflexivity].
Qed.

(** * Further properties of the code around the scheduler *)

(** ** The provider's reducer *)

(** X1: the theme is changed by [SET_THEME] only.  Whatever other actions
    are dispatched, [RESET_STATE] included, the theme stays what it
    was. *)
Theorem theme_changed_only_by_set_theme :
  forall acts s,
    forallb (fun a => negb (Hook.is_set_theme a)) acts = true ->
    Hook.theme (Hook.dispatch_all acts s) = Hook.theme s.
Proof.
  induction acts as [|a acts IH]; intros s H; [reflexivity|].
  cbn in H. apply andb_true_iff in H. destruct H as [Ha H].
  unfold Hook.dispatch_all in *. cbn [fold_left]. rewrite IH by exact H.
  destruct a; try reflexivity. discriminate.
Qed.

Lemma theme_changed_only_by_set_theme_witness :
  Hook.theme
    (Hook.dispatch_all
       [Hook.SET_CODEBASE_PATH "/repo"; Hook.ADD_CHAT_MESSAGE "hi"; Hook.RESET_STATE]
       (Hook.mkAppState "dark" "" false false None []))
  = "dark".
Proof.
  exact (theme_changed_only_by_set_theme
           [Hook.SET_CODEBASE_PATH "/repo"; Hook.ADD_CHAT_MESSAGE "hi"; Hook.RESET_STATE]
           (Hook.mkAppState "dark" "" false false None []) eq_refl).
Defined.

(** X2: the chat history is append-only between two clears.  As long as
    neither [CLEAR_CHAT_HISTORY] nor [RESET_STATE] is dispatched, the
    history after any sequence of actions is the history before followed
    by the added messages, in the order they were dispatched. *)
Theorem chat_history_appends_in_order :
  forall acts s,
    forallb (fun a => negb (Hook.empties_chat a)) acts = true ->
    Hook.chatHistory (Hook.dispatch_all acts s)
    = Hook.chatHistory s ++ Hook.added_messages acts.
Proof.
  induction acts as [|a acts IH]; intros s H; cbn.
  - now rewrite app_nil_r.
  - cbn in H. apply andb_true_iff in H. destruct H as [Ha H].
    unfold Hook.dispatch_all in *. rewrite IH by exact H.
    destruct a; cbn; try reflexivity; try discriminate.
    now rewrite <- app_assoc.
Qed.

Lemma chat_history_appends_in_order_witness :
  Hook.chatHistory
    (Hook.dispatch_all
       [Hook.ADD_CHAT_MESSAGE "q1"; Hook.SET_ERROR None; Hook.ADD_CHAT_MESSAGE "a1"]
       (Hook.mkAppState "light" "/repo" true false None ["q0"]))
  = ["q0"; "q1"; "a1"].
Proof.
  exact (chat_history_appends_in_order
           [Hook.ADD_CHAT_MESSAGE "q1"; Hook.SET_ERROR None; Hook.ADD_CHAT_MESSAGE "a1"]
           (Hook.mkAppState "light" "/repo" true false None ["q0"]) eq_refl).
Defined.

(** ** The command line *)

(** X3: a gatherer that [main] starts is valid and already at work.  On a
    clock that reads a time after the epoch, its interval is at least one
    minute, [intervalMs] is exactly that many times 60000 and the next run
    is a date; its target is not empty, its first request has left, its
    flag is set and exactly one timer is armed. *)
Theorem main_started_is_valid :
  forall now args w,
    (0 <= now)%Z ->
    Gatherer.main now args = Gatherer.Started w ->
    (1 <= Gatherer.intervalMinutes (Gatherer.self w))%Z
    /\ Gatherer.intervalMs (Gatherer.self w)
       = Num (Gatherer.intervalMinutes (Gatherer.self w) * 60000)
    /\ (now + Gatherer.intervalMinutes (Gatherer.self w) * 60000
        <= 8640000000000000)%Z
    /\ truthy (Gatherer.codebasePath (Gatherer.self w)) = true
    /\ nth_error args 0 = Some (Gatherer.codebasePath (Gatherer.self w))
    /\ Gatherer.posts w = [Gatherer.codebasePath (Gatherer.self w)]
    /\ Gatherer.pending w = [Gatherer.codebasePath (Gatherer.self w)]
    /\ Gatherer.isRunning (Gatherer.self w) = true
    /\ Gatherer.intervalId (Gatherer.self w) = Some 1%nat
    /\ Gatherer.timers w = [1%nat]
    /\ Gatherer.exited w = None.
Proof.
  intros now args w Hn H.
  destruct (main_started now args w H) as (p & z & Ha & Hp & Hz & _ & Hs).
  destruct (Z.leb_spec (now + z * 60000) 8640000000000000) as [Hv|Hv].
  - rewrite start_fresh_valid in Hs by assumption.
    injection Hs as <-. cbn. repeat split; auto.
  - destruct (start_fresh_invalid now p z Hn Hz Hv) as (Hr & _).
    unfold returns in Hr. rewrite Hs in Hr. discriminate.
Qed.

Lemma main_started_is_valid_witness :
  Gatherer.timers
    (exec (Gatherer.start Gatherer.example_now) (Gatherer.boot "/repo" 5))
  = [1%nat].
Proof.
  assert (Hn : (0 <= Gatherer.example_now)%Z) by (vm_compute; discriminate).
  assert (E : Gatherer.main Gatherer.example_now ["/repo"; "5"]
              = Gatherer.Started
                  (exec (Gatherer.start Gatherer.example_now)
                        (Gatherer.boot "/repo" 5)))
    by (vm_compute; reflexivity).
  destruct (main_started_is_valid _ _ _ Hn E)
    as (_ & _ & _ & _ & _ & _ & _ & _ & _ & H & _).
  exact H.
Defined.

(** Reading digits continues an accumulator the way [Nat.of_uint_acc]
    does. *)
Lemma read_digits_of_uint d :
  forall acc,
    Gatherer.read_digits 10 (DecimalString.NilEmpty.string_of_uint d)
                         (Some (Z.of_nat acc))
    = Some (Z.of_nat (Nat.of_uint_acc d acc)).
Proof.
  induction d; intro acc; cbn [DecimalString.NilEmpty.string_of_uint
                               Gatherer.read_digits Nat.of_uint_acc];
    try reflexivity;
    match goal with
    | |- context [Gatherer.digit_value ?c] =>
        let v := eval vm_compute in (Gatherer.digit_value c) in
        change (Gatherer.digit_value c) with v
    end;
    cbv iota beta;
    match goal with
    | |- context [(?z <? 10)%Z] => change (z <? 10)%Z with true
    end;
    cbv iota; rewrite <- IHd; do 2 f_equal; rewrite Nat.tail_mul_spec; lia.
Qed.

Lemma read_digits_of_uint_Z d z :
  (0 <= z)%Z ->
  Gatherer.read_digits 10 (DecimalString.NilEmpty.string_of_uint d) (Some z)
  = Some (Z.of_nat (Nat.of_uint_acc d (Z.to_nat z))).
Proof.
  intro H. rewrite <- read_digits_of_uint. now rewrite Z2Nat.id.
Qed.

(** Evaluates the character tests of [parseInt] on literal characters. *)
Ltac eval_chars :=
  repeat match goal with
         | |- context [Gatherer.is_space ?c] =>
             change (Gatherer.is_space c) with false
         | |- context [Gatherer.digit_value ?c] =>
             let v := eval vm_compute in (Gatherer.digit_value c) in
             change (Gatherer.digit_value c) with v
         | |- context [(?z <? 10)%Z] =>
             let b := eval vm_compute in (z <? 10)%Z in
             change (z <? 10)%Z with b
         end.

Lemma parseInt_of_decimal n :
  Gatherer.parseInt (DecimalString.NilZero.string_of_uint (Nat.to_uint n))
  = round_double (Z.of_nat n).
Proof.
  rewrite <- (DecimalNat.Unsigned.of_to n) at 2.
  destruct (Nat.to_uint n) as [|u|u|u|u|u|u|u|u|u|u];
    cbn [DecimalString.NilZero.string_of_uint DecimalString.NilEmpty.string_of_uint];
    [reflexivity | destruct u; cbn [DecimalString.NilEmpty.string_of_uint] | ..];
    unfold Gatherer.parseInt; cbn [Gatherer.trim_start]; eval_chars;
    cbv beta iota zeta; cbn [Gatherer.read_digits];
    repeat (progress (eval_chars; cbv beta iota));
    try reflexivity;
    (rewrite read_digits_of_uint_Z by lia);
    cbn [option_map]; rewrite Z.mul_1_l; reflexivity.
Qed.

Lemma parseInt_minus_decimal n :
  Gatherer.parseInt
    (String "-" (DecimalString.NilZero.string_of_uint (Nat.to_uint n)))
  = round_double (- Z.of_nat n).
Proof.
  rewrite <- (DecimalNat.Unsigned.of_to n) at 2.
  destruct (Nat.to_uint n) as [|u|u|u|u|u|u|u|u|u|u];
    cbn [DecimalString.NilZero.string_of_uint DecimalString.NilEmpty.string_of_uint];
    [reflexivity | destruct u; cbn [DecimalString.NilEmpty.string_of_uint] | ..];
    unfold Gatherer.parseInt; cbn [Gatherer.trim_start]; eval_chars;
    cbv beta iota zeta; cbn [Gatherer.read_digits];
    repeat (progress (eval_chars; cbv beta iota));
    try reflexivity;
    (rewrite read_digits_of_uint_Z by lia);
    cbn [option_map]; f_equal; lia.
Qed.

(** A decimal numeral, with or without a minus sign, is no help flag. *)
Lemma decimal_args_no_help path n :
  path <> "--help" -> path <> "-h" ->
  let d := DecimalString.NilZero.string_of_uint (Nat.to_uint n) in
  Gatherer.includes "--help" [path; d] = false
  /\ Gatherer.includes "-h" [path; d] = false
  /\ Gatherer.includes "--help" [path; String "-" d] = false
  /\ Gatherer.includes "-h" [path; String "-" d] = false.
Proof.
  intros H1 H2 d. unfold Gatherer.includes. cbn [existsb].
  destruct (String.eqb_spec "--help" path) as [E|_]; [congruence|].
  destruct (String.eqb_spec "-h" path) as [E|_]; [congruence|].
  unfold d.
  destruct (Nat.to_uint n); cbn; auto.
Qed.

(** X5: the interval argument, written in decimal.  For a target that is
    neither empty nor a help flag and a clock that reads a time after the
    epoch, an interval of at least 1 whose next run is still a date starts
    a gatherer with exactly that interval, in minutes and in milliseconds,
    and any number of at least 1 with a minus sign makes [main] exit with
    status 1 and the interval error, before anything is constructed. *)
Theorem main_decimal_interval :
  forall now path n,
    truthy path = true ->
    path <> "--help" -> path <> "-h" ->
    (1 <= n)%nat ->
    (0 <= now)%Z ->
    let d := DecimalString.NilZero.string_of_uint (Nat.to_uint n) in
    let w := exec (Gatherer.start now) (Gatherer.boot path (Z.of_nat n)) in
    ((now + Z.of_nat n * 60000 <= 8640000000000000)%Z ->
     Gatherer.main now [path; d] = Gatherer.Started w
     /\ Gatherer.intervalMinutes (Gatherer.self w) = Z.of_nat n
     /\ Gatherer.intervalMs (Gatherer.self w) = Num (Z.of_nat n * 60000)
     /\ Gatherer.posts w = [path])
    /\ Gatherer.main now [path; String "-" d]
       = Gatherer.Exit 1 [(Err, Gatherer.IntervalTooSmall)].
Proof.
  intros now path n Hp H1 H2 Hn Hnow d w.
  destruct (decimal_args_no_help path n H1 H2) as (A & B & C & D).
  destruct main_interval_default_and_negative as (_ & _ & Hneg & Hpos).
  split.
  - intro Hv.
    assert (Hd : Gatherer.parseInt d = Num (Z.of_nat n)).
    { unfold d. rewrite parseInt_of_decimal. apply round_double_small. lia. }
    rewrite (Hpos now path d (Z.of_nat n)) by (assumption || lia).
    rewrite construct_and_start_cases by lia.
    destruct (Z.leb_spec (now + Z.of_nat n * 60000) 8640000000000000); [|lia].
    unfold w, exec. rewrite start_fresh_valid by lia. cbn. auto.
  - apply Hneg; auto.
    fold d. unfold d. rewrite parseInt_minus_decimal.
    pose proof (round_double_negative (Z.of_nat n) ltac:(lia)) as Hr.
    destruct (round_double (- Z.of_nat n)); auto.
Qed.

Lemma main_decimal_interval_witness :
  Gatherer.main Gatherer.example_now ["/repo"; "15"]
  = Gatherer.Started
      (exec (Gatherer.start Gatherer.example_now) (Gatherer.boot "/repo" 15))
  /\ Gatherer.main Gatherer.example_now ["/repo"; "-15"]
     = Gatherer.Exit 1 [(Err, Gatherer.IntervalTooSmall)].
Proof.
  assert (H1 : "/repo" <> "--help") by discriminate.
  assert (H2 : "/repo" <> "-h") by discriminate.
  assert (Hn : (1 <= 15)%nat) by lia.
  assert (H0 : (0 <= Gatherer.example_now)%Z) by (vm_compute; discriminate).
  assert (Hv : (Gatherer.example_now + Z.of_nat 15 * 60000
                <= 8640000000000000)%Z) by (vm_compute; discriminate).
  destruct (main_decimal_interval Gatherer.example_now "/repo" 15%nat
              eq_refl H1 H2 Hn H0) as [Hs He].
  split; [exact (proj1 (Hs Hv)) | exact He].
Defined.



(** ** The gatherer's lifecycle *)

(** X6: stopping twice is stopping once.  In the process and in the hook
    a second [stop] right after the first changes nothing, not even the
    console, and a [stop] with no timer armed is silent. *)
Theorem stop_idempotent :
  (forall w, exec Gatherer.stop (exec Gatherer.stop w) = exec Gatherer.stop w)
  /\ (forall w,
        Gatherer.intervalId (Gatherer.self w) = None ->
        Gatherer.stop w = (Normal tt, w))
  /\ (forall w,
        exec Hook.stopPeriodicGathering (exec Hook.stopPeriodicGathering w)
        = exec Hook.stopPeriodicGathering w)
  /\ (forall w,
        Hook.intervalRef w = None ->
        Hook.stopPeriodicGathering w = (Normal tt, w)).
Proof.
  repeat match goal with |- _ /\ _ => split end.
  - intros [[p m ms [i|] r] ts n pd ps c u x]; reflexivity.
  - intros [[p m ms i r] ts n pd ps c u x]; cbn. intros ->. reflexivity.
  - intros [[i|] r a rd sl lc ts n pd ps c u]; reflexivity.
  - intros [i r a rd sl lc ts n pd ps c u]; cbn. intros ->. reflexivity.
Qed.

Lemma stop_idempotent_witness :
  Gatherer.stop (Gatherer.boot "/repo" 3) = (Normal tt, Gatherer.boot "/repo" 3).
Proof.
  exact (proj1 (proj2 stop_idempotent) (Gatherer.boot "/repo" 3) eq_refl).
Defined.

(** X7: a termination signal is final.  In every state the event loop of
    the process reaches before it has exited, SIGINT or SIGTERM leaves no
    timer armed and exit status 0, and no sequence of later events changes
    anything: no request is sent and nothing more is printed, so the
    outcome of a request awaited at that moment is never reported. *)
Theorem exit_is_final :
  forall path mins evs later,
    let w := Gatherer.run evs (Gatherer.boot path mins) in
    Gatherer.exited w = None ->
    let w' := Gatherer.step Gatherer.Signal w in
    Gatherer.exited w' = Some 0%Z
    /\ Gatherer.timers w' = []
    /\ Gatherer.intervalId (Gatherer.self w') = None
    /\ Gatherer.pending w' = Gatherer.pending w
    /\ Gatherer.run later w' = w'.
Proof.
  intros path mins evs later w Hx w'.
  assert (H : Gatherer.inv w)
    by apply GathererFacts.inv_run, GathererFacts.inv_boot.
  assert (E : w' = exec Gatherer.handleExit w).
  { unfold w', Gatherer.step. rewrite Hx. reflexivity. }
  assert (Ex : Gatherer.exited w' = Some 0%Z).
  { rewrite E. destruct w as [[p m ms [i|] r] ts n pd ps c u x]; reflexivity. }
  repeat match goal with |- _ /\ _ => split end.
  - exact Ex.
  - rewrite E. clear E Ex w'. clearbody w.
    destruct w as [[p m ms [i|] r] ts n pd ps c u x];
      destruct H as (_ & Ht & _); cbn in *; subst ts; cbn;
      rewrite ?Nat.eqb_refl; reflexivity.
  - rewrite E. destruct w as [[p m ms [i|] r] ts n pd ps c u x]; reflexivity.
  - rewrite E. destruct w as [[p m ms [i|] r] ts n pd ps c u x]; reflexivity.
  - clear E. clearbody w'. induction later as [|e later IH]; [reflexivity|].
    cbn. unfold Gatherer.step at 2. rewrite Ex. exact IH.
Qed.

Lemma exit_is_final_witness :
  let w := Gatherer.run [Gatherer.CallStart Gatherer.example_now] (Gatherer.boot "/repo" 3) in
  let w' := Gatherer.step Gatherer.Signal w in
  Gatherer.exited w = None
  /\ Gatherer.run [Gatherer.Settle 0 (Fulfilled (mkHttpResponse 200 None));
                   Gatherer.Tick 1] w' = w'.
Proof.
  intros w w'.
  assert (Hx : Gatherer.exited w = None) by (vm_compute; reflexivity).
  split; [exact Hx|].
  destruct (exit_is_final "/repo" 3%Z [Gatherer.CallStart Gatherer.example_now]
              [Gatherer.Settle 0 (Fulfilled (mkHttpResponse 200 None));
               Gatherer.Tick 1] Hx) as (_ & _ & _ & _ & H).
  exact H.
Defined.

(** X8: the process reports a reply on standard output and a failed
    request on standard error.  When a request is fulfilled, every line
    [gatherContext] prints goes to [console.log], also when the body
    carries a status other than 200 (the warning lines); when it is
    rejected, every line goes to [console.error] and the first one is the
    failure headline. *)
Theorem outcome_streams :
  (forall r w,
     Gatherer.console (exec (Gatherer.gatherContext_resume r) w)
     = Gatherer.console w ++ Gatherer.outcome_lines r)
  /\ (forall resp,
        Forall (fun l => fst l = Out) (Gatherer.outcome_lines (Fulfilled resp)))
  /\ (forall e,
        Forall (fun l => fst l = Err) (Gatherer.outcome_lines (Rejected e))
        /\ hd_error (Gatherer.outcome_lines (Rejected e))
           = Some (Err, Gatherer.GatheringFailed)).
Proof.
  repeat match goal with |- _ /\ _ => split end.
  - intros r w. unfold exec. rewrite GathererFacts.resume_outcome_lines.
    reflexivity.
  - intros [st [d|]]; [destruct (is_200 (statuscode d)) eqn:E|];
      cbv [Gatherer.outcome_lines exec Gatherer.gatherContext_resume tryFinally
           tryCatch await bind ret Gatherer.console_log Gatherer.print modify
           Gatherer.set_isRunning Gatherer.set_self data];
      cbn; rewrite ?E; cbn; repeat constructor.
  - intros [[resp|] [|] msg]; split; cbn; repeat constructor.
Qed.

(** ** The hook's effects *)

(** The first effect, run with no timer armed on a freshly rendered,
    mounted component, leaves the timer wired. *)
Lemma wired_effect w :
  Hook.intervalRef w = None -> Hook.timers w = [] ->
  Hook.lifecycle w = Hook.Mounted -> Hook.stale w = false ->
  Hook.wired (exec (Hook.effect (Hook.app w)) w).
Proof.
  destruct w as [i r a rd sl lc ts n pd ps c u]; cbn.
  intros -> -> -> ->. unfold Hook.effect, Hook.wired.
  destruct (Hook.isContextGathered a && truthy (Hook.codebasePath a))%bool eqn:E.
  - apply andb_true_iff in E. destruct E as [Eg Ep].
    unfold Hook.startPeriodicGathering, Hook.should_run, exec; cbn.
    rewrite Ep. cbn. rewrite Eg, Ep. cbn. split; [reflexivity|]. eauto.
  - unfold Hook.should_run, exec. cbn. rewrite E. auto.
Qed.

Lemma wired_rerender w :
  Hook.inv w -> Hook.lifecycle w = Hook.Mounted ->
  Hook.wired (exec Hook.rerender w).
Proof.
  intros H Hl. rewrite HookFacts.hook_exec_rerender.
  destruct (HookFacts.hook_stop_effect w H) as [ls Hs]. rewrite Hs.
  match goal with
  | |- context [exec (if ?c then _ else _) ?W] =>
      replace (exec (if c then ret tt else Hook.stopPeriodicGathering) W) with W
        by (destruct c; reflexivity)
  end.
  match goal with
  | |- Hook.wired (exec (Hook.effect ?a) ?W) =>
      change a with (Hook.app W); apply wired_effect; auto
  end.
Qed.

(** A wired world has nothing left to render. *)
Lemma flush_wired w : Hook.wired w -> Hook.flush w = w.
Proof.
  unfold Hook.wired, Hook.flush.
  destruct (Hook.lifecycle w); try (destruct (Hook.stale w); reflexivity).
  intros [-> _]. reflexivity.
Qed.

(** [gatherContext] leaves the timer and the render bookkeeping alone. *)
Lemma wired_gatherContext path w :
  Hook.wired w -> Hook.wired (exec (Hook.gatherContext path) w).
Proof.
  unfold Hook.gatherContext, exec.
  destruct (negb (truthy path) || Hook.isRunningRef w)%bool; [auto|].
  destruct w; auto.
Qed.

Lemma wired_step e w :
  Hook.page_event e = true ->
  Hook.inv w -> Hook.wired w -> Hook.wired (Hook.step e w).
Proof.
  intros He H Hw. unfold Hook.step.
  destruct e; try discriminate; cbn [Hook.handle].
  - (* Tick *)
    assert (Hh : Hook.wired (match Hook.timer_path id w with
                             | Some path => exec (Hook.gatherContext path) w
                             | None => w end))
      by (destruct (Hook.timer_path id w); auto using wired_gatherContext).
    rewrite flush_wired; exact Hh.
  - (* Settle *)
    pose proof (HookFacts.hook_inv_settle k r w H) as Hi.
    unfold Hook.settle in *.
    destruct (nth_error (Hook.pending w) k); [|now rewrite flush_wired].
    destruct (HookFacts.hook_resume_released r) as [lines [_ Hr]].
    rewrite Hr in *. cbn [fst snd] in *.
    destruct (Hook.fed_back r).
    + unfold Hook.flush. cbn [Hook.released Hook.stale Hook.lifecycle].
      destruct (Hook.lifecycle w) eqn:El.
      * unfold Hook.wired in *. cbn. rewrite El in *. exact Hw.
      * apply wired_rerender; [exact Hi | first [exact El | reflexivity]].
      * unfold Hook.wired in *. cbn. rewrite El in *. exact Hw.
    + rewrite flush_wired; unfold Hook.wired in *; cbn; exact Hw.
  - (* Mount *)
    destruct (Hook.lifecycle w) eqn:El; try (now rewrite flush_wired).
    rewrite HookFacts.exec_seq by apply HookFacts.hook_total_set_lifecycle.
    rewrite HookFacts.exec_seq by apply HookFacts.hook_total_render.
    unfold Hook.wired in Hw. rewrite El in Hw. destruct Hw as [Hi Ht].
    rewrite flush_wired;
      match goal with
      | |- Hook.wired (exec (Hook.effect ?a) ?W) =>
          change a with (Hook.app W); apply wired_effect; auto
      end.
  - (* Dispatch *)
    pose proof (HookFacts.hook_inv_dispatch a w H) as Hi.
    unfold Hook.flush.
    replace (Hook.stale (exec (Hook.dispatch a) w)) with true by reflexivity.
    replace (Hook.lifecycle (exec (Hook.dispatch a) w)) with (Hook.lifecycle w)
      by reflexivity.
    destruct (Hook.lifecycle w) eqn:El.
    + unfold Hook.wired in *. cbn. rewrite El in *. exact Hw.
    + apply wired_rerender; [exact Hi | first [exact El | reflexivity]].
    + unfold Hook.wired in *. cbn. rewrite El in *. exact Hw.
  - (* Unmount *)
    destruct (Hook.lifecycle w) eqn:El; try (now rewrite flush_wired).
    rewrite HookFacts.exec_seq by apply HookFacts.hook_total_set_lifecycle.
    rewrite HookFacts.exec_seq by apply HookFacts.hook_total_stop.
    assert (Hi : Hook.inv (exec (Hook.set_lifecycle Hook.Unmounted) w))
      by now apply HookFacts.hook_inv_set_lifecycle.
    destruct (HookFacts.hook_stop_effect _ Hi) as [ls Hs]. rewrite Hs.
    rewrite flush_wired; unfold Hook.wired; cbn; auto.
Qed.

Lemma wired_run evs :
  forall w,
    forallb Hook.page_event evs = true ->
    Hook.inv w -> Hook.wired w ->
    Hook.inv (Hook.run evs w) /\ Hook.wired (Hook.run evs w).
Proof.
  induction evs as [|e evs IH]; intros w He H Hw; [auto|].
  cbn in He. apply andb_true_iff in He. destruct He as [He Hes].
  cbn. apply IH; auto using HookFacts.hook_inv_step, wired_step.
Qed.

Lemma wired_reachable s evs :
  forallb Hook.page_event evs = true ->
  Hook.wired (Hook.run evs (Hook.init s)).
Proof.
  intro He.
  apply wired_run; [exact He | apply HookFacts.hook_inv_init |].
  unfold Hook.wired. cbn. auto.
Qed.

(** X9: the timer is what the first effect decides.  Under the events of
    the page itself (timer, network, mount, unmount and dispatches), a
    mounted component has a timer armed exactly when the context was
    gathered and the path is not empty, that timer is the only one and is
    bound to the provider's current path; a component that is not mounted
    has none. *)
Theorem hook_timer_follows_effect :
  forall s evs,
    forallb Hook.page_event evs = true ->
    Hook.wired (Hook.run evs (Hook.init s)).
Proof. exact wired_reachable. Qed.

Lemma hook_timer_follows_effect_witness :
  let s := Hook.mkAppState "light" "/a" true false None [] in
  Hook.wired
    (Hook.run [Hook.Mount; Hook.Dispatch (Hook.SET_CODEBASE_PATH "/b")]
              (Hook.init s)).
Proof.
  intro s.
  exact (hook_timer_follows_effect s
           [Hook.Mount; Hook.Dispatch (Hook.SET_CODEBASE_PATH "/b")] eq_refl).
Defined.

(** A step of an unmounted, wired world sends nothing and keeps it
    unmounted. *)
Lemma unmounted_step e w :
  Hook.page_event e = true ->
  Hook.wired w -> Hook.lifecycle w = Hook.Unmounted ->
  Hook.lifecycle (Hook.step e w) = Hook.Unmounted
  /\ Hook.posts (Hook.step e w) = Hook.posts w.
Proof.
  intros He Hw Hl.
  assert (Ht : Hook.timers w = []).
  { unfold Hook.wired in Hw. rewrite Hl in Hw. apply Hw. }
  assert (Hf : forall w1, Hook.lifecycle w1 = Hook.Unmounted -> Hook.flush w1 = w1).
  { intros w1 E. unfold Hook.flush. rewrite E. destruct (Hook.stale w1); reflexivity. }
  unfold Hook.step. destruct e; try discriminate; cbn [Hook.handle].
  - unfold Hook.timer_path. rewrite Ht. cbn. rewrite Hf; auto.
  - assert (E : Hook.lifecycle (Hook.settle k r w) = Hook.Unmounted).
    { unfold Hook.settle. destruct (nth_error (Hook.pending w) k); [|exact Hl].
      destruct (HookFacts.hook_resume_released r) as [lines [_ Hr]].
      rewrite Hr. exact Hl. }
    rewrite Hf by exact E. split; [exact E | apply HookFacts.hook_settle_posts].
  - rewrite Hl. rewrite Hf; auto.
  - rewrite Hf; auto.
  - rewrite Hl. rewrite Hf; auto.
Qed.

(** X10: an unmounted component is quiet.  Once the component was torn
    down, no event of the page sends another request or arms a timer; only
    requests that were already awaited still settle. *)
Theorem hook_unmounted_is_quiet :
  forall s evs later,
    forallb Hook.page_event evs = true ->
    forallb Hook.page_event later = true ->
    let w := Hook.run evs (Hook.init s) in
    Hook.lifecycle w = Hook.Unmounted ->
    Hook.posts (Hook.run later w) = Hook.posts w
    /\ Hook.timers (Hook.run later w) = []
    /\ Hook.intervalRef (Hook.run later w) = None
    /\ Hook.lifecycle (Hook.run later w) = Hook.Unmounted.
Proof.
  intros s evs later He Hl w Hu.
  assert (Hw : Hook.inv w /\ Hook.wired w).
  { apply wired_run; [exact He | apply HookFacts.hook_inv_init |].
    unfold Hook.wired. cbn. auto. }
  clearbody w. clear He evs. revert w Hu Hw.
  induction later as [|e later IH]; intros w Hu [Hi Hw].
  - unfold Hook.wired in Hw. rewrite Hu in Hw. cbn. tauto.
  - cbn in Hl. apply andb_true_iff in Hl. destruct Hl as [He Hl].
    destruct (unmounted_step e w He Hw Hu) as [Hu' Hp'].
    cbn. rewrite <- Hp'. apply IH; auto.
    split; [now apply HookFacts.hook_inv_step | now apply wired_step].
Qed.

Lemma hook_unmounted_is_quiet_witness :
  let s := Hook.mkAppState "light" "/repo" true false None [] in
  let w := Hook.run [Hook.Mount; Hook.Tick 1; Hook.Unmount] (Hook.init s) in
  let later := [Hook.Tick 1;
                Hook.Settle 0 (Fulfilled (mkHttpResponse 200
                  (Some (mkResponseData (Some 200%Z) None None))));
                Hook.Dispatch (Hook.ADD_CHAT_MESSAGE "hi"); Hook.Tick 2] in
  Hook.lifecycle w = Hook.Unmounted
  /\ Hook.posts (Hook.run later w) = Hook.posts w.
Proof.
  intros s w later.
  assert (Hu : Hook.lifecycle w = Hook.Unmounted) by (vm_compute; reflexivity).
  split; [exact Hu|].
  exact (proj1 (hook_unmounted_is_quiet s
                  [Hook.Mount; Hook.Tick 1; Hook.Unmount] later
                  eq_refl eq_refl Hu)).
Defined.

(** A render with a timer armed and the condition holding clears the
    timer and arms a new one. *)
Lemma rerender_rearms w i p :
  Hook.intervalRef w = Some i -> Hook.timers w = [(i, p)] ->
  (i < Hook.nextTimer w)%nat ->
  Hook.should_run (Hook.app w) = true ->
  let w' := exec Hook.rerender w in
  Hook.intervalRef w' = Some (Hook.nextTimer w)
  /\ Hook.timers w' = [(Hook.nextTimer w, Hook.codebasePath (Hook.app w))]
  /\ Hook.timer_path i w' = None
  /\ Hook.posts w' = Hook.posts w
  /\ Hook.console w'
     = Hook.console w ++ [(Out, Hook.Stopping); (Out, Hook.StartingEvery)].
Proof.
  destruct w as [ir r ap rd sl lc ts n pd ps c u]; cbn.
  intros -> -> Hlt Hs.
  unfold Hook.should_run in Hs. apply andb_true_iff in Hs. destruct Hs as [Hg Hp].
  assert (Hne : Nat.eqb i n = false) by (apply Nat.eqb_neq; lia).
  unfold Hook.rerender, exec; cbn. rewrite Nat.eqb_refl. cbn.
  destruct (String.eqb _ _); cbn;
    unfold Hook.effect, Hook.startPeriodicGathering; cbn;
    rewrite ?Hg, ?Hp; cbn; rewrite ?Hp; cbn;
    unfold Hook.timer_path; cbn; rewrite ?Hne; cbn;
    rewrite <- ?app_assoc; cbn; auto 10.
Qed.

(** X11: every dispatch restarts the interval.  On a mounted component
    with a timer armed, any action after which the effect's condition
    still holds (a chat message, a theme change, another path) makes the
    component render again, clear its timer and arm a new one, bound to
    the path after the action; the old handle is armed no more, and no
    request is sent by the restart. *)
Theorem hook_dispatch_rearms_timer :
  forall s evs a i,
    forallb Hook.page_event evs = true ->
    let w := Hook.run evs (Hook.init s) in
    let w' := Hook.step (Hook.Dispatch a) w in
    Hook.lifecycle w = Hook.Mounted ->
    Hook.intervalRef w = Some i ->
    Hook.should_run (Hook.appReducer (Hook.app w) a) = true ->
    Hook.intervalRef w' = Some (Hook.nextTimer w)
    /\ Hook.timers w'
       = [(Hook.nextTimer w, Hook.codebasePath (Hook.appReducer (Hook.app w) a))]
    /\ (i < Hook.nextTimer w)%nat
    /\ Hook.timer_path i w' = None
    /\ Hook.posts w' = Hook.posts w
    /\ Hook.console w'
       = Hook.console w ++ [(Out, Hook.Stopping); (Out, Hook.StartingEvery)].
Proof.
  intros s evs a i He w w' Hl Hi Hs.
  assert (Hw : Hook.wired w).
  { apply wired_reachable. exact He. }
  unfold Hook.wired in Hw. rewrite Hl in Hw. destruct Hw as [Hst Hw].
  destruct (Hook.should_run (Hook.app w)) eqn:Er;
    [|destruct Hw as [Hn _]; congruence].
  destruct Hw as (j & Hj & Ht & Hlt).
  assert (j = i) by congruence. subst j.
  assert (E : w' = exec Hook.rerender (exec (Hook.dispatch a) w)).
  { unfold w', Hook.step, Hook.flush. cbn [Hook.handle].
    replace (Hook.stale (exec (Hook.dispatch a) w)) with true by reflexivity.
    replace (Hook.lifecycle (exec (Hook.dispatch a) w)) with (Hook.lifecycle w)
      by reflexivity.
    rewrite Hl. reflexivity. }
  rewrite E.
  destruct (rerender_rearms (exec (Hook.dispatch a) w) i
              (Hook.codebasePath (Hook.app w)) Hi Ht Hlt Hs)
    as (A & B & C & D & F).
  repeat split; auto.
Qed.

Lemma hook_dispatch_rearms_timer_witness :
  let s := Hook.mkAppState "light" "/repo" true false None [] in
  let w := Hook.run [Hook.Mount] (Hook.init s) in
  let w' := Hook.step (Hook.Dispatch (Hook.ADD_CHAT_MESSAGE "hi")) w in
  Hook.intervalRef w = Some 1%nat
  /\ Hook.intervalRef w' = Some 2%nat.
Proof.
  intros s w w'.
  assert (Hi : Hook.intervalRef w = Some 1%nat) by (vm_compute; reflexivity).
  split; [exact Hi|].
  exact (proj1 (hook_dispatch_rearms_timer s [Hook.Mount]
                  (Hook.ADD_CHAT_MESSAGE "hi") 1%nat eq_refl eq_refl Hi eq_refl)).
Defined.

(** ** The setup page *)

Lemma truthy_false_empty s : truthy s = false -> s = "".
Proof. destruct s; [reflexivity | discriminate]. Qed.

Lemma trim_start_spaces s :
  forallb Gatherer.is_space (list_ascii_of_string s) = true ->
  Gatherer.trim_start s = "".
Proof.
  induction s as [|c s IH]; [reflexivity|]. cbn.
  intro H. apply andb_true_iff in H. destruct H as [Hc Hs].
  rewrite Hc. auto.
Qed.

Lemma validatePath_truthy path :
  Setup.validatePath path = "" -> truthy path = true.
Proof.
  unfold Setup.validatePath. destruct path as [|c path]; [|reflexivity].
  cbn. discriminate.
Qed.

(** X12: what [validatePath] accepts.  It returns the empty string exactly
    for a path that has a character other than white space and contains a
    slash or a backslash; such a path is never empty; and a path made of
    white space only is rejected as missing. *)
Theorem validatePath_accepts :
  (forall path,
     Setup.validatePath path = "" <->
     truthy (Setup.trim path) = true
     /\ (Setup.includes "/" path || Setup.includes Setup.backslash path)%bool = true)
  /\ (forall path, Setup.validatePath path = "" -> truthy path = true)
  /\ (forall path,
        forallb Gatherer.is_space (list_ascii_of_string path) = true ->
        Setup.validatePath path = "Codebase path is required").
Proof.
  assert (A : forall path,
     Setup.validatePath path = "" <->
     truthy (Setup.trim path) = true
     /\ (Setup.includes "/" path || Setup.includes Setup.backslash path)%bool = true).
  { intro path. unfold Setup.validatePath.
    destruct (truthy (Setup.trim path)); cbn [negb].
    - destruct (Setup.includes "/" path), (Setup.includes Setup.backslash path);
        cbn; split; intros; try tauto; try discriminate; intuition discriminate.
    - split; [discriminate | intros [? _]; discriminate]. }
  split; [exact A|]. split.
  - intros path H. apply A in H. destruct H as [H _].
    destruct path; [discriminate | reflexivity].
  - intros path H. unfold Setup.validatePath, Setup.trim.
    rewrite (trim_start_spaces path H). reflexivity.
Qed.

(** What [handleStartProcessing] does once its request settled. *)
Lemma setup_resume_effect r body_error p :
  exists lines m,
    truthy m = true /\
    Setup.handleStartProcessing_resume r body_error p
    = (Normal tt,
       Setup.mkPage
         (if Setup.succeeded r
          then Hook.mkAppState (Hook.theme (Setup.app p))
                 (Hook.codebasePath (Setup.app p)) true false
                 (Hook.error (Setup.app p)) (Hook.chatHistory (Setup.app p))
          else Hook.mkAppState (Hook.theme (Setup.app p))
                 (Hook.codebasePath (Setup.app p))
                 (Hook.isContextGathered (Setup.app p)) false
                 (Some m) (Hook.chatHistory (Setup.app p)))
         (Setup.localCodebasePath p) (Setup.validationError p)
         (Setup.awaited p) (Setup.sent p) (Setup.console p ++ lines)
         (if Setup.succeeded r then true else Setup.navigateDue p)).
Proof.
  assert (T : forall a b, truthy b = true -> truthy (Setup.string_or a b) = true).
  { intros [m|] b Hb; cbn; [destruct (truthy m) eqn:E|]; auto. }
  destruct r as [[st [d|]] | e].
  - destruct (is_200 (statuscode d)) eqn:E.
    + eexists. exists "x". split; [reflexivity|].
      cbv [Setup.handleStartProcessing_resume tryFinally tryCatch bind
           Setup.contextService_gatherContext_resume Setup.of_service
           Setup.succeeded data].
      cbn. rewrite E. cbn. rewrite <- !app_assoc. reflexivity.
    + eexists.
      exists (Setup.error_text
                (mkJsError None false
                   (Setup.string_or body_error "Failed to gather context"))).
      split; [apply T, T; reflexivity|].
      cbv [Setup.handleStartProcessing_resume tryFinally tryCatch bind
           Setup.contextService_gatherContext_resume Setup.of_service
           Setup.succeeded data].
      cbn. rewrite E. cbn. rewrite <- !app_assoc. reflexivity.
  - eexists. exists (Setup.error_text Hook.TypeError_statuscode).
    split; [reflexivity|]. cbn. rewrite <- !app_assoc. reflexivity.
  - eexists. exists (Setup.error_text e).
    split; [apply T, T; reflexivity|]. cbn. rewrite <- !app_assoc. reflexivity.
Qed.

(** X13: how the one-shot gathering ends.  Whatever way the request
    settles, the rest of [handleStartProcessing] returns and clears the
    loading flag, and leaves the theme, the path and the chat history
    alone.  After a reply with [statuscode] 200 the context is marked as
    gathered, the error is left as it was and the navigation to the chat
    is scheduled; after anything else the gathered flag and the navigation
    are left as they were and the error is set to a message that is never
    empty. *)
Theorem setup_completion :
  forall r body_error p,
    let p' := exec (Setup.handleStartProcessing_resume r body_error) p in
    returns (Setup.handleStartProcessing_resume r body_error) p = true
    /\ Hook.isLoading (Setup.app p') = false
    /\ Hook.theme (Setup.app p') = Hook.theme (Setup.app p)
    /\ Hook.codebasePath (Setup.app p') = Hook.codebasePath (Setup.app p)
    /\ Hook.chatHistory (Setup.app p') = Hook.chatHistory (Setup.app p)
    /\ Setup.sent p' = Setup.sent p
    /\ Setup.awaited p' = Setup.awaited p
    /\ if Setup.succeeded r
       then Hook.isContextGathered (Setup.app p') = true
            /\ Hook.error (Setup.app p') = Hook.error (Setup.app p)
            /\ Setup.navigateDue p' = true
       else Hook.isContextGathered (Setup.app p')
            = Hook.isContextGathered (Setup.app p)
            /\ Setup.navigateDue p' = Setup.navigateDue p
            /\ exists m, Hook.error (Setup.app p') = Some m /\ truthy m = true.
Proof.
  intros r body_error p p'.
  destruct (setup_resume_effect r body_error p) as (lines & m & Hm & E).
  unfold p', returns, exec. rewrite E. cbn.
  destruct (Setup.succeeded r); cbn; repeat split; eauto.
Qed.

(** What [handleStartProcessing] does when it is called. *)
Lemma setup_start_effect p :
  (Setup.validatePath (Setup.localCodebasePath p) <> ""
   /\ Setup.handleStartProcessing p
      = (Normal tt,
         Setup.mkPage (Setup.app p) (Setup.localCodebasePath p)
           (Setup.validatePath (Setup.localCodebasePath p))
           (Setup.awaited p) (Setup.sent p) (Setup.console p)
           (Setup.navigateDue p)))
  \/ (Setup.validatePath (Setup.localCodebasePath p) = ""
      /\ Setup.handleStartProcessing p
         = (Normal tt,
            Setup.mkPage
              (Hook.mkAppState (Hook.theme (Setup.app p))
                 (Setup.localCodebasePath p)
                 (Hook.isContextGathered (Setup.app p)) true None
                 (Hook.chatHistory (Setup.app p)))
              (Setup.localCodebasePath p) (Setup.validationError p)
              (Setup.awaited p ++ [Setup.localCodebasePath p])
              (Setup.sent p ++ [Setup.localCodebasePath p])
              (Setup.console p
               ++ [(Out, Setup.StartingGathering (Setup.localCodebasePath p));
                   (Out, Setup.Service Hook.MakingRequest)])
              (Setup.navigateDue p))).
Proof.
  unfold Setup.handleStartProcessing.
  destruct (truthy (Setup.validatePath (Setup.localCodebasePath p))) eqn:E.
  - left. split; [|reflexivity].
    intro H. rewrite H in E. discriminate.
  - right. split; [now apply truthy_false_empty|].
    cbn. rewrite <- !app_assoc. reflexivity.
Qed.

(** X14: the page sends a request only for a path that passed
    validation.  Whatever is typed, clicked and answered, and whatever the
    rest of the application dispatches meanwhile, every request the page
    has sent carries a path [validatePath] accepts, so none carries an
    empty path. *)
Theorem setup_sends_valid_paths :
  forall s evs,
    Forall (fun q => Setup.validatePath q = "" /\ truthy q = true)
           (Setup.sent (Setup.run evs (Setup.init s))).
Proof.
  intros s evs.
  assert (G : forall p,
            Forall (fun q => Setup.validatePath q = "" /\ truthy q = true)
                   (Setup.sent p) ->
            Forall (fun q => Setup.validatePath q = "" /\ truthy q = true)
                   (Setup.sent (Setup.run evs p))).
  { induction evs as [|e evs IH]; intros p H; [exact H|].
    cbn. apply IH.
    assert (Hs : Forall (fun q => Setup.validatePath q = "" /\ truthy q = true)
                        (Setup.sent (exec Setup.handleStartProcessing p))).
    { unfold exec.
      destruct (setup_start_effect p) as [[_ ->] | [Hv ->]]; cbn; [exact H|].
      apply Forall_app. split; [exact H|]. constructor; [|constructor].
      split; [exact Hv | now apply validatePath_truthy]. }
    destruct e; cbn.
    - destruct (Hook.isLoading (Setup.app p)); [exact H|].
      unfold Setup.handlePathChange, exec.
      destruct (truthy (Setup.validationError p)); exact H.
    - destruct (_ || _)%bool; [exact H | exact Hs].
    - destruct (Hook.isLoading (Setup.app p)); [exact H | exact Hs].
    - unfold Setup.settle.
      destruct (nth_error (Setup.awaited p) k); [|exact H].
      match goal with
      | |- context [exec (Setup.handleStartProcessing_resume ?r ?b) ?q] =>
          destruct (setup_resume_effect r b q) as (lines & m & _ & E)
      end.
      unfold exec. rewrite E. exact H.
    - exact H.
    - exact H. }
  apply G. constructor.
Qed.

(** X16: the four displays of the status card agree.  The icon, the
    title, the style class and the message follow the same order of
    precedence (loading, then error, then gathered, then ready), so each
    icon comes with its own title, class and message. *)
Theorem status_displays_agree :
  forall state,
    match Setup.getStatusIcon state with
    | Setup.Clock =>
        Hook.isLoading state = true
        /\ Setup.statusTitle state = "Processing"
        /\ Setup.getStatusClass state = Setup.statusLoading
        /\ Setup.getStatusMessage state
           = "Processing codebase... This may take a few minutes."
    | Setup.AlertCircle =>
        Hook.isLoading state = false
        /\ Setup.statusTitle state = "Error"
        /\ Setup.getStatusClass state = Setup.statusError
        /\ exists e, Hook.error state = Some e /\ truthy e = true
                     /\ Setup.getStatusMessage state = String.append "Error: " e
    | Setup.CheckCircle =>
        Hook.isLoading state = false
        /\ truthy_opt (Hook.error state) = false
        /\ Hook.isContextGathered state = true
        /\ Setup.statusTitle state = "Completed"
        /\ Setup.getStatusClass state = Setup.statusSuccess
        /\ Setup.getStatusMessage state
           = "Context gathering completed! Redirecting to chat..."
    | Setup.Play =>
        Hook.isLoading state = false
        /\ truthy_opt (Hook.error state) = false
        /\ Hook.isContextGathered state = false
        /\ Setup.statusTitle state = "Ready"
        /\ Setup.getStatusClass state = Setup.statusReady
        /\ Setup.getStatusMessage state = "Ready to process your codebase"
    end.
Proof.
  intros [th p g l e ch].
  unfold Setup.getStatusIcon, Setup.statusTitle, Setup.getStatusClass,
         Setup.getStatusMessage; cbn.
  destruct l; [auto|].
  destruct e as [m|]; cbn.
  - destruct (truthy m) eqn:E; [eauto 10|]. destruct g; auto 10.
  - destruct g; auto 10.
Qed.

(** A component that mounts under a provider whose context is gathered and
    whose path is not empty arms its timer and sends nothing. *)
Lemma mount_arms a :
  Hook.isContextGathered a = true ->
  truthy (Hook.codebasePath a) = true ->
  let w := Hook.run [Hook.Mount] (Hook.init a) in
  Hook.intervalRef w = Some 1%nat
  /\ Hook.timers w = [(1%nat, Hook.codebasePath a)]
  /\ Hook.posts w = [].
Proof.
  intros Hg Hp. cbn. unfold Hook.step, Hook.flush, exec. cbn.
  unfold Hook.effect, Hook.startPeriodicGathering. cbn.
  rewrite ?Hg, ?Hp. cbn. rewrite ?Hp. cbn. auto.
Qed.

(** X17: a successful setup is what starts the periodic gathering.  When
    the page starts processing a path that passes validation and the reply
    carries [statuscode] 200, the provider holds that path, is marked as
    gathered and is no longer loading; a component using the hook that
    mounts under it arms its timer for that path, and sends no request of
    its own on mounting. *)
Theorem setup_success_arms_hook :
  forall p r body_error,
    Setup.validatePath (Setup.localCodebasePath p) = "" ->
    Setup.succeeded r = true ->
    let p1 := exec Setup.handleStartProcessing p in
    let p2 := exec (Setup.handleStartProcessing_resume r body_error) p1 in
    let w := Hook.run [Hook.Mount] (Hook.init (Setup.app p2)) in
    Hook.codebasePath (Setup.app p2) = Setup.localCodebasePath p
    /\ Hook.isContextGathered (Setup.app p2) = true
    /\ Hook.isLoading (Setup.app p2) = false
    /\ Hook.error (Setup.app p2) = None
    /\ Hook.intervalRef w = Some 1%nat
    /\ Hook.timers w = [(1%nat, Setup.localCodebasePath p)]
    /\ Hook.posts w = [].
Proof.
  intros p r body_error Hv Hs p1 p2 w.
  assert (E1 : Hook.codebasePath (Setup.app p1) = Setup.localCodebasePath p
               /\ Hook.error (Setup.app p1) = None).
  { unfold p1, exec.
    destruct (setup_start_effect p) as [[Hn _] | [_ ->]]; [congruence|].
    cbn. auto. }
  destruct E1 as [E1 E1'].
  destruct (setup_resume_effect r body_error p1) as (lines & m & _ & E).
  rewrite Hs in E.
  assert (Hl : Hook.isLoading (Setup.app p2) = false)
    by (unfold p2, exec; rewrite E; reflexivity).
  assert (Hc : Hook.codebasePath (Setup.app p2) = Hook.codebasePath (Setup.app p1))
    by (unfold p2, exec; rewrite E; reflexivity).
  assert (Hg : Hook.isContextGathered (Setup.app p2) = true)
    by (unfold p2, exec; rewrite E; reflexivity).
  assert (He : Hook.error (Setup.app p2) = Hook.error (Setup.app p1))
    by (unfold p2, exec; rewrite E; reflexivity).
  assert (Hp : truthy (Hook.codebasePath (Setup.app p2)) = true).
  { rewrite Hc, E1. now apply validatePath_truthy. }
  destruct (mount_arms (Setup.app p2) Hg Hp) as (A & B & C).
  fold w in A, B, C. rewrite Hc, E1 in B.
  repeat split; auto; congruence.
Qed.

Lemma setup_success_arms_hook_witness :
  let p := Setup.mkPage Hook.initialState "/repo" "" [] [] [] false in
  let r := Fulfilled (mkHttpResponse 200
             (Some (mkResponseData (Some 200%Z) (Some "ok") None))) in
  let p2 := exec (Setup.handleStartProcessing_resume r None)
                 (exec Setup.handleStartProcessing p) in
  Hook.timers (Hook.run [Hook.Mount] (Hook.init (Setup.app p2)))
  = [(1%nat, "/repo")].
Proof.
  intros p r p2.
  assert (Hv : Setup.validatePath (Setup.localCodebasePath p) = "")
    by (vm_compute; reflexivity).
  destruct (setup_success_arms_hook p r None Hv eq_refl)
    as (_ & _ & _ & _ & _ & H & _).
  exact H.
Defined.

(** ** [truncateText] and the header *)

Lemma length_append s1 s2 :
  String.length (String.append s1 s2) = (String.length s1 + String.length s2)%nat.
Proof. induction s1 as [|c s1 IH]; cbn; [reflexivity | now rewrite IH]. Qed.

Lemma substring0_length n :
  forall s, (n <= String.length s)%nat -> String.length (substring 0 n s) = n.
Proof.
  induction n as [|n IH]; intros [|c s] H; cbn in *; try reflexivity; try lia.
  rewrite IH by lia. reflexivity.
Qed.

Lemma substring0_append n :
  forall s t,
    (n <= String.length s)%nat ->
    substring 0 n (String.append (substring 0 n s) t) = substring 0 n s.
Proof.
  assert (Z0 : forall x, substring 0 0 x = "") by (intros [|c x]; reflexivity).
  induction n as [|n IH]; intros s t H.
  - rewrite (Z0 s). cbn. apply Z0.
  - destruct s as [|c s]; cbn in *; [lia|].
    rewrite IH by lia. reflexivity.
Qed.

Lemma truncateText_cases text m :
  ((Z.of_nat (String.length text) <= m)%Z
   /\ Formatters.truncateText text m = text)
  \/ ((m < Z.of_nat (String.length text))%Z
      /\ Formatters.truncateText text m
         = String.append (substring 0 (Z.to_nat m) text) "...").
Proof.
  unfold Formatters.truncateText.
  destruct (Z.leb_spec (Z.of_nat (String.length text)) m); auto.
Qed.

(** X18: truncating twice is truncating once.  For every text and every
    limit, [truncateText] applied to its own result with the same limit
    returns that result: the three dots are appended once. *)
Theorem truncateText_idempotent :
  forall text maxLength,
    Formatters.truncateText (Formatters.truncateText text maxLength) maxLength
    = Formatters.truncateText text maxLength.
Proof.
  intros text m.
  destruct (truncateText_cases text m) as [[Hle E] | [Hgt E]]; rewrite E.
  - exact E.
  - assert (Hk : (Z.to_nat m <= String.length text)%nat) by lia.
    destruct (truncateText_cases
                (String.append (substring 0 (Z.to_nat m) text) "...") m)
      as [[Hle' _] | [_ E']].
    + rewrite length_append, substring0_length in Hle' by exact Hk.
      cbn [String.length] in Hle'. lia.
    + rewrite E'. now rewrite substring0_append.
Qed.

(** X19: the length [truncateText] returns.  A text no longer than the
    limit comes back unchanged; a longer one comes back as its first
    [maxLength] characters (none for a negative limit) followed by three
    dots, so the result is never longer than the limit plus three. *)
Theorem truncateText_length :
  forall text maxLength,
    ((Z.of_nat (String.length text) <= maxLength)%Z ->
     Formatters.truncateText text maxLength = text)
    /\ ((maxLength < Z.of_nat (String.length text))%Z ->
        Formatters.truncateText text maxLength
        = String.append (substring 0 (Z.to_nat maxLength) text) "..."
        /\ String.length (Formatters.truncateText text maxLength)
           = (Z.to_nat maxLength + 3)%nat)
    /\ (Z.of_nat (String.length (Formatters.truncateText text maxLength))
        <= Z.max maxLength 0 + 3)%Z.
Proof.
  intros text m.
  destruct (truncateText_cases text m) as [[Hle E] | [Hgt E]]; rewrite E.
  - repeat split; intros; try lia.
  - assert (Hk : (Z.to_nat m <= String.length text)%nat) by lia.
    rewrite length_append, substring0_length by exact Hk. cbn [String.length].
    repeat split; intros; try lia.
Qed.

(** X20: the theme toggle.  [toggleTheme] always changes the theme, to
    dark from light and to light from anything else, and changes nothing
    but the theme; toggling twice from light or from dark gives back the
    state one started from. *)
Theorem toggleTheme_flips :
  forall s,
    let s1 := Hook.appReducer s (Header.toggleTheme s) in
    let s2 := Hook.appReducer s1 (Header.toggleTheme s1) in
    Hook.theme s1 <> Hook.theme s
    /\ (Hook.theme s1 = "dark" \/ Hook.theme s1 = "light")
    /\ s1 = Hook.mkAppState (Hook.theme s1) (Hook.codebasePath s)
              (Hook.isContextGathered s) (Hook.isLoading s) (Hook.error s)
              (Hook.chatHistory s)
    /\ (Hook.theme s = "light" \/ Hook.theme s = "dark" -> s2 = s).
Proof.
  intros [th p g l e ch]. cbn.
  destruct (String.eqb_spec th "light") as [->|Hn]; cbn.
  - repeat split; auto; discriminate.
  - repeat split; auto.
    intros [->| ->]; [congruence | reflexivity].
Qed.

(** X21: leaving for the home page stops the gathering.  Clicked on any
    page but the home page, the brand dispatches [RESET_STATE]: the path
    is emptied and the gathered flag cleared while the theme is kept, and
    a component using the hook, mounted or not, is left with no timer
    armed. *)
Theorem home_click_disarms :
  forall s evs pathname,
    forallb Hook.page_event evs = true ->
    pathname <> "/" ->
    let w := Hook.run evs (Hook.init s) in
    let w' := Hook.run (map Hook.Dispatch (Header.handleHomeClick pathname)) w in
    Hook.app w'
    = Hook.mkAppState (Hook.theme (Hook.app w)) "" false false None []
    /\ Hook.intervalRef w' = None
    /\ Hook.timers w' = []
    /\ Hook.posts w' = Hook.posts w.
Proof.
  intros s evs pathname He Hp w w'.
  assert (E : w' = Hook.run (evs ++ [Hook.Dispatch Hook.RESET_STATE]) (Hook.init s)).
  { unfold w', w, Header.handleHomeClick.
    destruct (String.eqb_spec pathname "/"); [congruence|].
    unfold Hook.run. rewrite fold_left_app. reflexivity. }
  assert (Hw : Hook.wired w').
  { rewrite E. apply wired_reachable.
    rewrite forallb_app, He. reflexivity. }
  assert (Es : w' = Hook.step (Hook.Dispatch Hook.RESET_STATE) w).
  { unfold w', Header.handleHomeClick.
    destruct (String.eqb_spec pathname "/"); [congruence | reflexivity]. }
  assert (Ea : Hook.app w'
               = Hook.mkAppState (Hook.theme (Hook.app w)) "" false false None []).
  { rewrite Es. unfold Hook.step. cbn [Hook.handle].
    pose proof (HookFacts.hook_calls_flush
                  (exec (Hook.dispatch Hook.RESET_STATE) w)) as Hc.
    unfold Hook.calls in Hc. injection Hc as _ _ _ Hc _. rewrite Hc. reflexivity. }
  assert (Eq : Hook.posts w' = Hook.posts w).
  { rewrite Es. unfold Hook.step.
    rewrite (HookFacts.hook_calls_posts _ _ (HookFacts.hook_calls_flush _)).
    reflexivity. }
  unfold Hook.wired in Hw. rewrite Ea in Hw. cbn in Hw.
  repeat split; auto; destruct (Hook.lifecycle w'); tauto.
Qed.

Lemma home_click_disarms_witness :
  let s := Hook.mkAppState "dark" "/repo" true false None ["hi"] in
  let w := Hook.run [Hook.Mount; Hook.Tick 1] (Hook.init s) in
  Hook.timers w = [(1%nat, "/repo")]
  /\ Hook.timers
       (Hook.run (map Hook.Dispatch (Header.handleHomeClick "/chat")) w) = [].
Proof.
  intros s w. split; [vm_compute; reflexivity|].
  assert (Hp : "/chat" <> "/") by discriminate.
  destruct (home_click_disarms s [Hook.Mount; Hook.Tick 1] "/chat" eq_refl Hp)
    as (_ & _ & H & _).
  exact H.
Defined.

Lemma validatePath_accepts_witness :
  Setup.validatePath "/srv/repo" = "" /\ truthy "/srv/repo" = true.
Proof.
  assert (H : Setup.validatePath "/srv/repo" = "") by (vm_compute; reflexivity).
  split; [exact H|].
  exact (proj1 (proj2 validatePath_accepts) "/srv/repo" H).
Defined.

Lemma truncateText_length_witness :
  String.length (Formatters.truncateText "periodic context gathering" 8) = 11%nat.
Proof.
  assert (H : (8 < Z.of_nat (String.length "periodic context gathering"))%Z)
    by (vm_compute; reflexivity).
  exact (proj2 (proj1 (proj2 (truncateText_length "periodic context gathering" 8)) H)).
Defined.

Lemma toggleTheme_flips_witness :
  let s := Hook.mkAppState "dark" "/repo" true false None [] in
  let s1 := Hook.appReducer s (Header.toggleTheme s) in
  Hook.appReducer s1 (Header.toggleTheme s1) = s.
Proof.
  intros s s1.
  destruct (toggleTheme_flips s) as (_ & _ & _ & H).
  exact (H (or_intror eq_refl)).
Defined.
